(** * mayautils.SceneFile: naming convention, saving and version increment

    A shallow embedding of [src/mayautils.py].  Python strings are modelled
    as [string] (sequences of 8-bit characters), Python integers as [Z],
    exceptions as an inductive type, and the Maya host ([pymel.core]) as a
    record of capabilities over an abstract world state.  Every call into
    the host is logged, so that statements about "how often" the host is
    asked to save can be written down. *)

From Stdlib Require Import String Ascii List ZArith Lia Bool.
Import ListNotations.

Local Open Scope string_scope.
Local Open Scope list_scope.
Local Open Scope Z_scope.

(** ** Python string primitives *)

Module PyStr.

(** [sep in s] *)
Fixpoint contains (sep s : string) : bool :=
  match s with
  | EmptyString => prefix sep s
  | String _ s' => prefix sep s || contains sep s'
  end.

(** [s.split(sep)] for a non-empty [sep] (the source only ever passes the
    literals "_v" and "."; Python rejects an empty separator).  The scan
    goes left to right; [skip] counts the characters of a separator that
    was just matched and still has to be stepped over, [cur] is the piece
    collected so far. *)
Fixpoint split_go (sep : string) (skip : nat) (cur s : string) : list string :=
  match s with
  | EmptyString => [cur]
  | String c s' =>
      match skip with
      | S k => split_go sep k cur s'
      | O =>
          if prefix sep s
          then cur :: split_go sep (String.length sep - 1) "" s'
          else split_go sep 0 (cur ++ String c "")%string s'
      end
  end.

Definition split (sep s : string) : list string := split_go sep 0 "" s.

(** Characters skipped by [int()] around the number (C [isspace]). *)
Definition is_space (c : ascii) : bool :=
  let n := nat_of_ascii c in
  (((9 <=? n) && (n <=? 13)) || (n =? 32))%nat.

Definition digit_of (c : ascii) : option Z :=
  let n := Z.of_nat (nat_of_ascii c) in
  if (48 <=? n) && (n <=? 57) then Some (n - 48) else None.

Fixpoint lstrip (s : string) : string :=
  match s with
  | EmptyString => ""
  | String c s' => if is_space c then lstrip s' else s
  end.

Fixpoint rstrip (s : string) : string :=
  match s with
  | EmptyString => ""
  | String c s' =>
      let r := rstrip s' in
      if is_space c && (r =? "")%string then "" else String c r
  end.

(** The digit part of an integer literal: decimal digits, a single "_"
    allowed between two digits.  [prev] tells whether the previous
    character was a digit. *)
Fixpoint int_digits (acc : Z) (prev : bool) (s : string) : option Z :=
  match s with
  | EmptyString => if prev then Some acc else None
  | String c s' =>
      match digit_of c with
      | Some d => int_digits (10 * acc + d) true s'
      | None =>
          if (c =? "_")%char && prev then int_digits acc false s' else None
      end
  end.

(** [int(s)] in base 10, as Python 3 reads ASCII text: blanks around the
    number are dropped, one sign may precede the digits, leading zeros are
    allowed.  [None] stands for the [ValueError] Python raises on text that
    is not an integer literal.  On ASCII text this is [int()]; whenever it
    reads a number, [int()] reads the same number.  Python also accepts
    some characters outside ASCII (the no-break space as a blank, other
    scripts' decimal digits), which this reader rejects: what is stated
    about rejected text is therefore stated for ASCII text, see
    [ascii_text]. *)
Definition int (s : string) : option Z :=
  match lstrip (rstrip s) with
  | String "-" t => option_map Z.opp (int_digits 0 false t)
  | String "+" t => int_digits 0 false t
  | t => int_digits 0 false t
  end.

Definition digit_char (d : Z) : ascii := ascii_of_nat (Z.to_nat (48 + d)).

(** Decimal digits of a non-negative integer, most significant first. *)
Fixpoint digits_fuel (fuel : nat) (n : Z) (acc : string) : string :=
  match fuel with
  | O => acc
  | S f =>
      let acc' := String (digit_char (n mod 10)) acc in
      if n / 10 =? 0 then acc' else digits_fuel f (n / 10) acc'
  end.

Definition decimal (n : Z) : string :=
  digits_fuel (S (Z.to_nat (Z.log2 n))) n "".

Fixpoint zeros (k : nat) : string :=
  match k with
  | O => ""
  | S k' => String "0" (zeros k')
  end.

Definition zero_pad (width : nat) (s : string) : string :=
  (zeros (width - String.length s) ++ s)%string.

(** [format(v, "03d")]: sign-aware zero padding to a minimum width of 3. *)
Definition format_03d (v : Z) : string :=
  if v <? 0 then String "-" (zero_pad 2 (decimal (- v)))
  else zero_pad 3 (decimal v).

(** Auxiliary predicates used to state facts about [split]. *)

(** No occurrence of [sep] starts inside [a] when [a] is followed by
    [rest]. *)
Fixpoint no_start (sep a rest : string) : bool :=
  match a with
  | EmptyString => true
  | String _ a' => negb (prefix sep (a ++ rest)%string) && no_start sep a' rest
  end.

Fixpoint forall_chars (P : ascii -> bool) (s : string) : bool :=
  match s with
  | EmptyString => true
  | String c s' => P c && forall_chars P s'
  end.

Definition is_digit (c : ascii) : bool :=
  match digit_of c with Some _ => true | None => false end.

End PyStr.

(** ** Paths ([pymel]'s [Path] is a string with [os.path] methods; POSIX
    conventions, separator "/") *)

Module Path.

Definition has_sep (p : string) : bool := PyStr.contains "/" p.

(** [Path(p).name], i.e. [os.path.basename]: what follows the last "/". *)
Definition name (p : string) : string := last (PyStr.split "/" p) "".

(** [p[:p.rfind("/")+1]] *)
Fixpoint head (p : string) : string :=
  match p with
  | EmptyString => ""
  | String c p' => if has_sep p then String c (head p') else ""
  end.

Fixpoint all_sep (p : string) : bool :=
  match p with
  | EmptyString => true
  | String c p' => (c =? "/")%char && all_sep p'
  end.

Fixpoint rstrip_sep (p : string) : string :=
  match p with
  | EmptyString => ""
  | String c p' =>
      let r := rstrip_sep p' in
      if (c =? "/")%char && (r =? "")%string then "" else String c r
  end.

(** [Path(p).parent], i.e. [os.path.dirname]. *)
Definition parent (p : string) : string :=
  let h := head p in
  if all_sep h then h else rstrip_sep h.

Definition ends_with_sep (p : string) : bool :=
  match p with
  | EmptyString => false
  | _ => (last (list_ascii_of_string p) "a"%char =? "/")%char
  end.

(** [Path(a) / b], i.e. [os.path.join(a, b)]. *)
Definition join (a b : string) : string :=
  if prefix "/" b then b
  else if (a =? "")%string || ends_with_sep a then (a ++ b)%string
  else (a ++ "/" ++ b)%string.

End Path.

(** ** Exceptions and the error monad *)

(** The exception classes that occur.  [OtherException] stands for any class
    that is not derived from [RuntimeError]. *)
Inductive exn : Type :=
| RuntimeError (msg : string)
| ValueError
| IndexError
| OtherException (cls : string).

(** [except RuntimeError] *)
Definition is_RuntimeError (e : exn) : bool :=
  match e with
  | RuntimeError _ => true
  | _ => false
  end.

(** The message of the [RuntimeError] raised by [SceneFile.__init__]; this
    is the error the specification calls [NamingConventionError]. *)
Definition naming_scheme_msg : string :=
  "Incorrect naming scheme. Use this format for files: SceneName + _v + VersionNumber".

Definition NamingConventionError : exn := RuntimeError naming_scheme_msg.

(** A computation over a mutable state [S] that returns or raises. *)
Definition M (S A : Type) : Type := S -> (exn + A) * S.

Definition ret {S A} (a : A) : M S A := fun s => (inr a, s).

Definition raise {S A} (e : exn) : M S A := fun s => (inl e, s).

Definition bind {S A B} (c : M S A) (k : A -> M S B) : M S B :=
  fun s =>
    match c s with
    | (inr a, s') => k a s'
    | (inl e, s') => (inl e, s')
    end.

Definition get {S} : M S S := fun s => (inr s, s).

Definition modify {S} (f : S -> S) : M S unit := fun s => (inr tt, f s).

(** [try: body  except RuntimeError: handler] *)
Definition try_except_RuntimeError {S A} (body handler : M S A) : M S A :=
  fun s =>
    match body s with
    | (inl e, s') => if is_RuntimeError e then handler s' else (inl e, s')
    | r => r
    end.

Declare Scope py_scope.
Delimit Scope py_scope with py.
Notation "x <- c ;; k" := (bind c (fun x => k))
  (at level 61, c at next level, right associativity) : py_scope.
Notation "c ;;; k" := (bind c (fun _ => k))
  (at level 61, right associativity) : py_scope.
Local Open Scope py_scope.

(** [l[i]] for [i >= 0] *)
Definition py_index {S A} (l : list A) (i : nat) : M S A :=
  match nth_error l i with
  | Some x => ret x
  | None => raise IndexError
  end.

(** [int(s)] *)
Definition py_int {S} (s : string) : M S Z :=
  match PyStr.int s with
  | Some v => ret v
  | None => raise ValueError
  end.

(** What a call that saves and then returns [None] yields. *)
Definition outcome_of (r : option exn) : exn + option string :=
  match r with
  | None => inr None
  | Some e => inl e
  end.

(** ** The host *)

(** What the code asks of Maya and of the file system.  [saveAs] and
    [makedirs_p] may change the world and may raise. *)
Record SceneHost (W : Type) : Type := {
  isModified : W -> bool;
  sceneName : W -> string;
  getFileList : string -> W -> list string;
  saveAs : string -> W -> option exn * W;
  makedirs_p : string -> W -> option exn * W
}.

Arguments isModified {W}.
Arguments sceneName {W}.
Arguments getFileList {W}.
Arguments saveAs {W}.
Arguments makedirs_p {W}.

(** The calls that change or list the file system, in the order made. *)
Inductive call : Type :=
| CallSaveAs (path : string)
| CallMakedirs (dir : string)
| CallGetFileList (folder : string).

(** ** SceneFile *)

Record SceneFile : Type := {
  _dir : string;
  descriptor : string;
  version : Z;
  ext : string
}.

(** The [dir] property: [Path(self._dir)]. *)
Definition dir (sf : SceneFile) : string := _dir sf.

Definition set_version (v : Z) (sf : SceneFile) : SceneFile :=
  {| _dir := _dir sf; descriptor := descriptor sf; version := v; ext := ext sf |}.

(** [SceneFile.basename] *)
Definition basename (sf : SceneFile) : string :=
  (descriptor sf ++ "_v" ++ PyStr.format_03d (version sf) ++ "." ++ ext sf)%string.

(** [SceneFile.path] *)
Definition path (sf : SceneFile) : string := Path.join (dir sf) (basename sf).

Section Host.

Variable W : Type.
Variable host : SceneHost W.

(** [SceneFile.__init__]; the world is only read. *)
Definition init (dir0 descriptor0 : string) (version0 : Z) (ext0 : string)
  : M W SceneFile :=
  w <- get ;;
  if isModified host w then
    ret {| _dir := dir0; descriptor := descriptor0;
           version := version0; ext := ext0 |}
  else
    let open_path := sceneName host w in
    let fullname := Path.name open_path in
    let nameandversion := PyStr.split "_v" fullname in
    if negb (length nameandversion =? 2)%nat then
      raise NamingConventionError
    else
      d <- py_index nameandversion 0 ;;
      nv1 <- py_index nameandversion 1 ;;
      s0 <- py_index (PyStr.split "." nv1) 0 ;;
      v <- py_int s0 ;;
      nv1' <- py_index nameandversion 1 ;;
      e <- py_index (PyStr.split "." nv1') 1 ;;
      ret {| _dir := Path.parent open_path; descriptor := d;
             version := v; ext := e |}.

(** The state the methods run on: the world, the object and the log. *)
Record Mem : Type := {
  world : W;
  self : SceneFile;
  calls : list call
}.

Definition host_saveAs (p : string) : M Mem unit :=
  fun m =>
    let (r, w') := saveAs host p (world m) in
    let m' := {| world := w'; self := self m;
                 calls := calls m ++ [CallSaveAs p] |} in
    match r with
    | None => (inr tt, m')
    | Some e => (inl e, m')
    end.

Definition host_makedirs_p (d : string) : M Mem unit :=
  fun m =>
    let (r, w') := makedirs_p host d (world m) in
    let m' := {| world := w'; self := self m;
                 calls := calls m ++ [CallMakedirs d] |} in
    match r with
    | None => (inr tt, m')
    | Some e => (inl e, m')
    end.

Definition host_getFileList (folder : string) : M Mem (list string) :=
  fun m =>
    (inr (getFileList host folder (world m)),
     {| world := world m; self := self m;
        calls := calls m ++ [CallGetFileList folder] |}).

Definition get_self : M Mem SceneFile := fun m => (inr (self m), m).

Definition with_version (v : Z) (m : Mem) : Mem :=
  {| world := world m; self := set_version v (self m); calls := calls m |}.

(** The state after a host call: a new world and one more log entry. *)
Definition logged (w : W) (cs : list call) (m : Mem) : Mem :=
  {| world := w; self := self m; calls := calls m ++ cs |}.

(** [self.version = v] *)
Definition assign_version (v : Z) : M Mem unit := modify (with_version v).

(** [SceneFile.save].  The body has no [return]: the call yields [None]. *)
Definition save : M Mem (option string) :=
  try_except_RuntimeError
    (sf <- get_self ;;
     host_saveAs (path sf))
    (sf <- get_self ;;
     host_makedirs_p (dir sf) ;;;
     sf' <- get_self ;;
     host_saveAs (path sf')) ;;;
  ret None.

(** The body of the second [for] loop of [increment_and_save]; the local
    [largest_number] is passed in and handed back. *)
Definition scan_scene (scene : string) (largest_number : Z) : M Mem Z :=
  d <- py_index (PyStr.split "_v" scene) 0 ;;
  sf <- get_self ;;
  if (d =? descriptor sf)%string then
    nv1 <- py_index (PyStr.split "_v" scene) 1 ;;
    name <- py_index (PyStr.split "." nv1) 0 ;;
    value <- py_int name ;;
    sf1 <- get_self ;;
    let largest_number' :=
      if value >? version sf1 then value else largest_number in
    sf2 <- get_self ;;
    (if value =? version sf2
     then assign_version (largest_number' + 1)
     else ret tt) ;;;
    ret largest_number'
  else ret largest_number.

Fixpoint scan (scenes : list string) (largest_number : Z) : M Mem Z :=
  match scenes with
  | [] => ret largest_number
  | scene :: rest =>
      l <- scan_scene scene largest_number ;;
      scan rest l
  end.

(** The list [scenes] that [increment_and_save] builds from the listing. *)
Definition scenes_of (m : Mem) : list string :=
  map Path.name (getFileList host (dir (self m)) (world m)).

(** The state in which the scan starts: the listing has been asked for. *)
Definition listed (m : Mem) : Mem :=
  logged (world m) [CallGetFileList (dir (self m))] m.

(** The log entries a run has added. *)
Definition new_calls (before after : Mem) : list call :=
  skipn (length (calls before)) (calls after).

(** [SceneFile.increment_and_save] *)
Definition increment_and_save : M Mem (option string) :=
  sf <- get_self ;;
  files <- host_getFileList (dir sf) ;;
  let scenes := map Path.name files in
  sf0 <- get_self ;;
  scan scenes (version sf0) ;;;
  save ;;;
  ret None.

End Host.

(** The test of the loop: the text before the first "_v" is the descriptor
    of the object. *)
Definition same_descriptor (d scene : string) : bool :=
  (hd "" (PyStr.split "_v" scene) =? d)%string.

Arguments world {W}.
Arguments with_version {W}.
Arguments logged {W}.
Arguments scenes_of {W}.
Arguments listed {W}.
Arguments new_calls {W}.
Arguments self {W}.
Arguments calls {W}.
Arguments init {W}.
Arguments save {W}.
Arguments scan_scene {W}.
Arguments scan {W}.
Arguments increment_and_save {W}.

(** ** An in-memory host *)

Module FakeHost.

Record state : Type := {
  modified : bool;
  scene : string;
  dirs : list string;
  files : list string;
  read_only : bool
}.

Definition mem (x : string) (l : list string) : bool :=
  existsb (String.eqb x) l.

Definition dir_exists (d : string) (w : state) : bool :=
  (d =? "")%string || mem d (dirs w).

(** A directory and its ancestors, as far as the name goes. *)
Fixpoint ancestors (fuel : nat) (d : string) : list string :=
  match fuel with
  | O => []
  | S f =>
      if (d =? "")%string then []
      else if (Path.parent d =? d)%string then [d]
      else d :: ancestors f (Path.parent d)
  end.

Definition do_saveAs (p : string) (w : state) : option exn * state :=
  if negb (dir_exists (Path.parent p) w) then
    (Some (RuntimeError "Missing directory"), w)
  else if read_only w then
    (Some (RuntimeError "Permission denied"), w)
  else
    (None, {| modified := false; scene := p; dirs := dirs w;
              files := if mem p (files w) then files w else files w ++ [p];
              read_only := read_only w |}).

Definition do_makedirs_p (d : string) (w : state) : option exn * state :=
  (None, {| modified := modified w; scene := scene w;
            dirs := ancestors (S (String.length d)) d ++ dirs w;
            files := files w; read_only := read_only w |}).

Definition do_getFileList (folder : string) (w : state) : list string :=
  map Path.name
      (filter (fun f => (Path.parent f =? folder)%string) (files w)).

Definition host : SceneHost state := {|
  isModified := modified;
  sceneName := scene;
  getFileList := do_getFileList;
  saveAs := do_saveAs;
  makedirs_p := do_makedirs_p
|}.

Definition start (w : state) (sf : SceneFile) : Mem state :=
  {| world := w; self := sf; calls := [] |}.

End FakeHost.


(** ** The specification's wording, for comparison *)

Module Spec.

(** "the final largest_number equals the last-seen exceeding value in
    listing order", exceeding meaning: above the version before the call;
    the seed when no sibling exceeds it. *)
Definition last_exceeding (original : Z) (vs : list Z) : Z :=
  last (filter (fun v => v >? original) vs) original.

(** "split on the last ." *)
Fixpoint split_last_dot (s : string) : option (string * string) :=
  match s with
  | EmptyString => None
  | String c s' =>
      match split_last_dot s' with
      | Some (b, a) => Some (String c b, a)
      | None => if (c =? ".")%char then Some ("", s') else None
      end
  end.

(** "the portion before becomes version (parsed as an integer; fails with
    the same error kind on non-numeric content), the portion after becomes
    extension" *)
Definition parse_second_part (s : string) : exn + (Z * string) :=
  match split_last_dot s with
  | None => inl NamingConventionError
  | Some (b, a) =>
      match PyStr.int b with
      | None => inl NamingConventionError
      | Some v => inr (v, a)
      end
  end.

(** The object the quoted sentence describes once the file name has split
    into [d] and [second]. *)
Definition construct (parent d second : string) : exn + SceneFile :=
  match parse_second_part second with
  | inl e => inl e
  | inr (v, e) =>
      inr {| _dir := parent; descriptor := d; version := v; ext := e |}
  end.

End Spec.

(** ** Scenarios on the in-memory host *)

Module Scenario.

Import FakeHost.

Definition ship (v : Z) : SceneFile :=
  {| _dir := "/proj"; descriptor := "ship"; version := v; ext := "ma" |}.

Definition proj (open_file : string) (listing : list string) (ro : bool) : state :=
  {| modified := false; scene := open_file; dirs := ["/proj"];
     files := listing; read_only := ro |}.

(** The directory holds versions 1 and 2, listed in ascending order. *)
Definition ascending : state :=
  proj "/proj/ship_v001.ma" ["/proj/ship_v001.ma"; "/proj/ship_v002.ma"] false.

(** The same directory listed in descending order. *)
Definition descending : state :=
  proj "/proj/ship_v001.ma" ["/proj/ship_v002.ma"; "/proj/ship_v001.ma"] false.

(** Versions 5, 1 and 3, listed in that order. *)
Definition unordered : state :=
  proj "/proj/ship_v001.ma"
       ["/proj/ship_v005.ma"; "/proj/ship_v001.ma"; "/proj/ship_v003.ma"] false.

(** Versions 1 and 2 among files of other descriptors. *)
Definition crowded : state :=
  proj "/proj/ship_v001.ma"
       ["/proj/car_v007.ma"; "/proj/ship_v001.ma"; "/proj/notes.txt";
        "/proj/ship_v002.ma"; "/proj/shipyard_v009.ma"] false.

(** A file named like the descriptor, without "_v". *)
Definition bare_name : state :=
  proj "/proj/ship_v001.ma" ["/proj/ship"] false.

(** No directory exists yet. *)
Definition empty_disk : state :=
  {| modified := true; scene := ""; dirs := []; files := [];
     read_only := false |}.

End Scenario.

(** ** Reading a sibling's version *)

(** The integer the loop of [increment_and_save] reads from a scene name:
    [int(scene.split("_v")[1].split(".")[0])]; [None] when the index or the
    conversion fails. *)
Definition scene_version (scene : string) : option Z :=
  match nth_error (PyStr.split "_v" scene) 1 with
  | Some nv1 => PyStr.int (hd "" (PyStr.split "." nv1))
  | None => None
  end.

(** Text made of ASCII characters only. *)
Definition is_ascii (c : ascii) : bool := (nat_of_ascii c <? 128)%nat.

Definition ascii_text (s : string) : bool := PyStr.forall_chars is_ascii s.

(** Characters of a formatted version: digits and the sign. *)
Definition is_number_char (c : ascii) : bool :=
  PyStr.is_digit c || (c =? "-")%char.

Example split_ex1 : PyStr.split "_v" "ship_v001.ma" = ["ship"; "001.ma"].
Proof. reflexivity. Qed.

Example split_ex2 : PyStr.split "_v" "scene.ma" = ["scene.ma"].
Proof. reflexivity. Qed.

Example split_ex3 : PyStr.split "_v" "a_v_vb__v" = ["a"; ""; "b_"; ""].
Proof. reflexivity. Qed.

Example int_ex1 : PyStr.int "001" = Some 1.
Proof. reflexivity. Qed.

Example int_ex2 :
  PyStr.int " -1_0 " = Some (-10) /\ PyStr.int "1__0" = None /\
  PyStr.int "" = None /\ PyStr.int "abc" = None /\ PyStr.int "12_" = None.
Proof. repeat split. Qed.

Example format_ex1 :
  PyStr.format_03d 1 = "001" /\ PyStr.format_03d 42 = "042" /\
  PyStr.format_03d 999 = "999" /\ PyStr.format_03d 1000 = "1000" /\
  PyStr.format_03d 0 = "000" /\ PyStr.format_03d (-1) = "-01".
Proof. repeat split. Qed.

Example path_ex1 :
  Path.name "/proj/scenes/ship_v001.ma" = "ship_v001.ma" /\
  Path.parent "/proj/scenes/ship_v001.ma" = "/proj/scenes" /\
  Path.parent "ship_v001.ma" = "" /\ Path.parent "/ship_v001.ma" = "/" /\
  Path.join "/proj/scenes" "ship_v001.ma" = "/proj/scenes/ship_v001.ma" /\
  Path.join "" "ship_v001.ma" = "ship_v001.ma".
Proof. repeat split. Qed.

(** ** Facts about strings and [split] *)

Module PyStrFacts.

Import PyStr.

Lemma append_nil_r (s : string) : (s ++ "")%string = s.
Proof. induction s as [|c s IH]; simpl; [reflexivity | now rewrite IH]. Qed.

Lemma append_assoc (a b c : string) :
  ((a ++ b) ++ c)%string = (a ++ b ++ c)%string.
Proof. induction a as [|x a IH]; simpl; [reflexivity | now rewrite IH]. Qed.

Lemma split_go_cons (sep : string) (k : nat) (cur s : string) :
  exists x l, split_go sep k cur s = x :: l.
Proof.
  revert k cur; induction s as [|c s IH]; intros k cur; cbn [split_go].
  - now exists cur, [].
  - destruct k as [|k]; [|apply IH].
    destruct (prefix sep (String c s)); [|apply IH].
    now exists cur, (split_go sep (String.length sep - 1) "" s).
Qed.

Lemma split_go_skip (sep x : string) (cur b : string) :
  split_go sep (String.length x) cur (x ++ b) = split_go sep 0 cur b.
Proof. induction x as [|c x IH]; simpl; [reflexivity | exact IH]. Qed.

Lemma prefix_refl_app (sep b : string) : prefix sep (sep ++ b) = true.
Proof.
  induction sep as [|c sep IH]; simpl; [now destruct b|].
  destruct (ascii_dec c c); [exact IH | congruence].
Qed.

(** A separator at the very front closes the current piece. *)
Lemma split_go_sep (c : ascii) (sep' cur b : string) :
  split_go (String c sep') 0 cur (String c sep' ++ b) =
  cur :: split_go (String c sep') 0 "" b.
Proof.
  change (String c sep' ++ b)%string with (String c (sep' ++ b)).
  cbn [split_go].
  change (String c (sep' ++ b)) with (String c sep' ++ b)%string.
  rewrite prefix_refl_app.
  cbn [String.length]. rewrite Nat.sub_succ, Nat.sub_0_r.
  now rewrite split_go_skip.
Qed.

(** Characters before the first separator are collected. *)
Lemma split_go_no_start (sep a rest cur : string) :
  no_start sep a rest = true ->
  split_go sep 0 cur (a ++ rest) = split_go sep 0 (cur ++ a) rest.
Proof.
  revert cur; induction a as [|c a IH]; intros cur H.
  - cbn [append]. now rewrite append_nil_r.
  - cbn [no_start append] in H. apply andb_true_iff in H as [Hp Hn].
    apply negb_true_iff in Hp.
    cbn [append split_go]. rewrite Hp, IH by exact Hn.
    now rewrite append_assoc.
Qed.

Lemma contains_no_start (sep a rest : string) :
  no_start sep a rest = true ->
  contains sep (a ++ rest) = contains sep rest.
Proof.
  induction a as [|c a IH]; intros H; [reflexivity|].
  cbn [no_start append] in H. apply andb_true_iff in H as [Hp Hn].
  apply negb_true_iff in Hp.
  cbn [append contains]. rewrite Hp. now apply IH.
Qed.

(** Without an occurrence of the separator there is a single piece. *)
Lemma split_go_absent (sep cur s : string) :
  contains sep s = false -> split_go sep 0 cur s = [(cur ++ s)%string].
Proof.
  revert cur; induction s as [|c s IH]; intros cur H.
  - cbn [split_go]. now rewrite append_nil_r.
  - cbn [contains] in H. apply orb_false_iff in H as [Hp Hc].
    cbn [split_go]. rewrite Hp, IH by exact Hc.
    now rewrite append_assoc.
Qed.

Lemma split_absent (sep s : string) :
  contains sep s = false -> split sep s = [s].
Proof. intros H. unfold split. now rewrite split_go_absent. Qed.

(** An occurrence of the separator makes at least two pieces. *)
Lemma split_go_present (sep cur s : string) :
  sep <> "" -> contains sep s = true ->
  exists x y l, split_go sep 0 cur s = x :: y :: l.
Proof.
  intros Hsep. revert cur; induction s as [|c s IH]; intros cur H.
  - cbn in H. destruct sep; [congruence | discriminate].
  - cbn [contains] in H.
    cbn [split_go]. destruct (prefix sep (String c s)) eqn:Hp.
    + destruct (split_go_cons sep (String.length sep - 1) "" s) as (y & l & E).
      rewrite E. now exists cur, y, l.
    + cbn [orb] in H. now apply IH.
Qed.

(** The first character of the separator does not occur in [a]. *)
Lemma no_start_first_char (x : ascii) (sep' a rest : string) :
  forall_chars (fun c => negb (c =? x)%char) a = true ->
  no_start (String x sep') a rest = true.
Proof.
  induction a as [|c a IH]; intros H; [reflexivity|].
  cbn [forall_chars] in H. apply andb_true_iff in H as [Hc Ha].
  cbn [no_start append]. rewrite IH by exact Ha. rewrite andb_true_r.
  cbn [prefix].
  destruct (ascii_dec x c) as [->|]; [|reflexivity].
  now rewrite Ascii.eqb_refl in Hc.
Qed.

(** For the two-character separator "_v": a text without "_v" that is
    followed by "_v" has no earlier occurrence. *)
Lemma no_start_underscore_v (d rest : string) :
  contains "_v" d = false -> no_start "_v" d ("_v" ++ rest) = true.
Proof.
  induction d as [|c d IH]; intros H; [reflexivity|].
  cbn [contains] in H. apply orb_false_iff in H as [Hp Hc].
  cbn [no_start]. rewrite IH by exact Hc. rewrite andb_true_r.
  apply negb_true_iff.
  destruct d as [|c2 d]; cbn [append prefix] in *.
  - destruct (ascii_dec "_" c); [|reflexivity].
    destruct (ascii_dec "v" "_"); [discriminate | reflexivity].
  - destruct (ascii_dec "_" c); [|reflexivity].
    destruct (ascii_dec "v" c2); [|reflexivity].
    now destruct d.
Qed.

Lemma forall_chars_impl (P Q : ascii -> bool) (s : string) :
  (forall c, P c = true -> Q c = true) ->
  forall_chars P s = true -> forall_chars Q s = true.
Proof.
  intros HPQ; induction s as [|c s IH]; cbn [forall_chars]; [reflexivity|].
  intros H. apply andb_true_iff in H as [Hc Hs].
  now rewrite (HPQ _ Hc), IH.
Qed.

Lemma contains_dot_chars (s : string) :
  contains "." s = false ->
  forall_chars (fun c => negb (c =? ".")%char) s = true.
Proof.
  induction s as [|c s IH]; intros H; [reflexivity|].
  cbn [contains] in H. apply orb_false_iff in H as [Hp Hc].
  cbn [forall_chars]. rewrite IH by exact Hc. rewrite andb_true_r.
  cbn [prefix] in Hp.
  destruct (ascii_dec "." c) as [<-|Hne]; [now destruct s|].
  apply negb_true_iff, Ascii.eqb_neq. congruence.
Qed.

Lemma is_digit_not (x : ascii) :
  is_digit x = false -> forall c, is_digit c = true -> negb (c =? x)%char = true.
Proof.
  intros Hx c Hc. apply negb_true_iff, Ascii.eqb_neq. congruence.
Qed.

(** The shape the naming convention produces: one "_v", then the rest. *)
Lemma split_underscore_v (d rest : string) :
  contains "_v" d = false -> contains "_v" rest = false ->
  split "_v" (d ++ "_v" ++ rest) = [d; rest].
Proof.
  intros Hd Hrest. unfold split.
  rewrite split_go_no_start by now apply no_start_underscore_v.
  rewrite (split_go_sep "_" "v"). cbn [append].
  now rewrite split_go_absent.
Qed.

(** [split(".")] cuts at the first dot. *)
Lemma split_dot_first (a b : string) :
  contains "." a = false ->
  split "." (a ++ "." ++ b) = a :: split "." b.
Proof.
  intros Ha. unfold split.
  rewrite split_go_no_start
    by now apply no_start_first_char, contains_dot_chars.
  now rewrite (split_go_sep "." "").
Qed.

Lemma contains_after_digits (x : ascii) (sep' a rest : string) :
  is_digit x = false ->
  forall_chars is_digit a = true ->
  contains (String x sep') (a ++ rest) = contains (String x sep') rest.
Proof.
  intros Hx Ha. apply contains_no_start, no_start_first_char.
  revert Ha. apply forall_chars_impl, is_digit_not, Hx.
Qed.

Lemma contains_digits (x : ascii) (sep' a : string) :
  is_digit x = false ->
  forall_chars is_digit a = true ->
  contains (String x sep') a = false.
Proof.
  intros Hx Ha. rewrite <- (append_nil_r a).
  now rewrite contains_after_digits.
Qed.

(** A check over the integers [1 .. n], run by computation. *)
Lemma check_range (P : Z -> bool) (n : nat) :
  forallb P (map Z.of_nat (seq 1 n)) = true ->
  forall v, 1 <= v <= Z.of_nat n -> P v = true.
Proof.
  intros H v Hv. rewrite forallb_forall in H. apply H.
  apply in_map_iff. exists (Z.to_nat v). split; [lia|].
  apply in_seq. lia.
Qed.

(** Versions 1 to 999 are written with digits only and read back. *)
Lemma format_03d_int (v : Z) :
  1 <= v <= 999 ->
  forall_chars is_digit (format_03d v) = true /\
  int (format_03d v) = Some v.
Proof.
  intros Hv.
  pose (P := fun v => forall_chars is_digit (format_03d v) &&
                      match int (format_03d v) with
                      | Some u => u =? v
                      | None => false
                      end).
  assert (HP : P v = true).
  { apply (check_range P 999); [vm_compute; reflexivity | exact Hv]. }
  unfold P in HP. apply andb_true_iff in HP as [H1 H2].
  split; [exact H1|].
  destruct (int (format_03d v)) as [u|]; [|discriminate].
  apply Z.eqb_eq in H2. now subst.
Qed.

End PyStrFacts.

(** ** Construction from the open scene *)

Section InitFacts.

Variable W : Type.
Variable host : SceneHost W.

Import PyStr PyStrFacts.

(** What [__init__] does once the file name has split into two pieces. *)
Lemma init_two_parts (w : W) (dir0 d0 : string) (v0 : Z) (e0 : string)
      (d nv1 : string) :
  isModified host w = false ->
  split "_v" (Path.name (sceneName host w)) = [d; nv1] ->
  init host dir0 d0 v0 e0 w =
  (s0 <- py_index (split "." nv1) 0 ;;
   v <- py_int s0 ;;
   e <- py_index (split "." nv1) 1 ;;
   ret {| _dir := Path.parent (sceneName host w); descriptor := d;
          version := v; ext := e |}) w.
Proof.
  intros Hmod Hsplit. unfold init, bind at 1, get.
  rewrite Hmod, Hsplit. reflexivity.
Qed.

Lemma init_naming_error_length
      (w : W) (dir0 d0 : string) (v0 : Z) (e0 : string) :
  isModified host w = false ->
  fst (init host dir0 d0 v0 e0 w) = inl NamingConventionError <->
  length (split "_v" (Path.name (sceneName host w))) <> 2%nat.
Proof.
  intros Hmod.
  destruct (split "_v" (Path.name (sceneName host w)))
    as [|d [|nv1 [|x l]]] eqn:Hsplit;
    try (unfold init, bind, get; rewrite Hmod, Hsplit; cbn;
         split; [intros _; lia | reflexivity]).
  rewrite (init_two_parts w dir0 d0 v0 e0 d nv1 Hmod Hsplit).
  cbn [length]. split; [|intros H; now contradiction H].
  intros H. exfalso. revert H. unfold bind, py_index, py_int, ret, raise.
  destruct (nth_error (split "." nv1) 0); [|discriminate].
  destruct (PyStr.int s); [|discriminate].
  destruct (nth_error (split "." nv1) 1); discriminate.
Qed.

(** C6. With an open, unmodified document, [__init__] raises the naming
    convention error exactly when splitting the file name of the open scene
    on "_v" does not give two pieces; a file name without "_v" is such a
    name. *)
Theorem init_naming_error_iff (w : W) (dir0 d0 : string) (v0 : Z) (e0 : string) :
  isModified host w = false ->
  (fst (init host dir0 d0 v0 e0 w) = inl NamingConventionError <->
   length (split "_v" (Path.name (sceneName host w))) <> 2%nat) /\
  (contains "_v" (Path.name (sceneName host w)) = false ->
   fst (init host dir0 d0 v0 e0 w) = inl NamingConventionError).
Proof.
  intros Hmod. split; [now apply init_naming_error_length|].
  intros Habs. apply init_naming_error_length; [exact Hmod|].
  rewrite split_absent by exact Habs. cbn. lia.
Qed.

(** The second piece is cut at its first dot. *)
Lemma init_first_dot
      (w : W) (dir0 d0 : string) (v0 : Z) (e0 : string) (d a b : string) :
  isModified host w = false ->
  split "_v" (Path.name (sceneName host w)) = [d; (a ++ "." ++ b)%string] ->
  contains "." a = false ->
  init host dir0 d0 v0 e0 w =
  (match PyStr.int a with
   | None => inl ValueError
   | Some v =>
       inr {| _dir := Path.parent (sceneName host w); descriptor := d;
              version := v; ext := hd "" (split "." b) |}
   end, w).
Proof.
  intros Hmod Hsplit Ha.
  rewrite (init_two_parts w dir0 d0 v0 e0 d _ Hmod Hsplit).
  rewrite split_dot_first by exact Ha.
  unfold split. destruct (split_go_cons "." 0 "" b) as (x & l & E).
  rewrite E. unfold bind, py_index, py_int, ret, raise. cbn.
  now destruct (PyStr.int a).
Qed.

(** C7, as the code has it.  When the file name splits on "_v" into [d] and
    a second piece [a ++ "." ++ b] whose first dot is the one shown, and the
    version text [a] is ASCII, the version is [int(a)], a text that is not
    an integer literal raises [ValueError], and the extension is what lies
    between that first dot and the next one: all of [b] when [b] has no
    dot. *)
Theorem init_second_part_first_dot
        (w : W) (dir0 d0 : string) (v0 : Z) (e0 : string) (d a b : string) :
  isModified host w = false ->
  split "_v" (Path.name (sceneName host w)) = [d; (a ++ "." ++ b)%string] ->
  contains "." a = false ->
  ascii_text a = true ->
  init host dir0 d0 v0 e0 w =
  (match PyStr.int a with
   | None => inl ValueError
   | Some v =>
       inr {| _dir := Path.parent (sceneName host w); descriptor := d;
              version := v; ext := hd "" (split "." b) |}
   end, w) /\
  (contains "." b = false -> hd "" (split "." b) = b).
Proof.
  intros Hmod Hsplit Ha _. split.
  - now apply init_first_dot.
  - intros Hb. now rewrite split_absent.
Qed.

(** C3, as the code has it.  A descriptor without "_v", a version from 1 to
    999 and an extension with neither "." nor "_v" are recovered from the
    file name that [basename] gives them. *)
Theorem init_basename_roundtrip
        (w : W) (dir0 d0 : string) (v0 : Z) (e0 : string)
        (dir1 d : string) (v : Z) (e : string) :
  isModified host w = false ->
  Path.name (sceneName host w) =
    basename {| _dir := dir1; descriptor := d; version := v; ext := e |} ->
  contains "_v" d = false ->
  1 <= v <= 999 ->
  contains "." e = false ->
  contains "_v" e = false ->
  init host dir0 d0 v0 e0 w =
  (inr {| _dir := Path.parent (sceneName host w); descriptor := d;
          version := v; ext := e |}, w).
Proof.
  intros Hmod Hname Hd Hv Hdot He.
  destruct (format_03d_int v Hv) as [Hdig Hint].
  unfold basename in Hname. cbn [descriptor version ext] in Hname.
  assert (Hsplit : split "_v" (Path.name (sceneName host w)) =
                   [d; (format_03d v ++ "." ++ e)%string]).
  { rewrite Hname. apply split_underscore_v; [exact Hd|].
    rewrite contains_after_digits by (reflexivity || exact Hdig).
    cbn [append contains prefix]. destruct (ascii_dec "_" ".") as [H|_];
      [discriminate H | exact He]. }
  rewrite (init_first_dot w dir0 d0 v0 e0 d _ e Hmod Hsplit)
    by now apply contains_digits.
  now rewrite Hint, split_absent.
Qed.

End InitFacts.

(** ** Saving and the version scan *)

Section MethodFacts.

Variable W : Type.
Variable host : SceneHost W.

Import PyStr PyStrFacts.

(** [save] when the first attempt goes through. *)
Lemma save_first_success (m : Mem W) (w1 : W) :
  saveAs host (path (self m)) (world m) = (None, w1) ->
  save host m = (inr None, logged w1 [CallSaveAs (path (self m))] m).
Proof.
  intros H. unfold save, bind, try_except_RuntimeError, get_self, host_saveAs.
  now rewrite H.
Qed.

(** [save] when the first attempt raises. *)
Lemma save_first_failure (m : Mem W) (e : exn) (w1 : W) :
  saveAs host (path (self m)) (world m) = (Some e, w1) ->
  save host m =
  if is_RuntimeError e then
    match makedirs_p host (dir (self m)) w1 with
    | (Some e2, w2) =>
        (inl e2,
         logged w2 [CallSaveAs (path (self m)); CallMakedirs (dir (self m))] m)
    | (None, w2) =>
        (outcome_of (fst (saveAs host (path (self m)) w2)),
         logged (snd (saveAs host (path (self m)) w2))
                [CallSaveAs (path (self m)); CallMakedirs (dir (self m));
                 CallSaveAs (path (self m))] m)
    end
  else (inl e, logged w1 [CallSaveAs (path (self m))] m).
Proof.
  intros H.
  unfold save, bind, try_except_RuntimeError, get_self, host_saveAs,
    host_makedirs_p, logged.
  rewrite H. cbn [self world calls].
  destruct (is_RuntimeError e); [|reflexivity].
  destruct (makedirs_p host (dir (self m)) w1) as [[e2|] w2];
    cbn [self world calls]; rewrite <- ?app_assoc; [reflexivity|].
  destruct (saveAs host (path (self m)) w2) as [[e3|] w3];
    cbn [self world calls fst snd outcome_of]; now rewrite <- ?app_assoc.
Qed.

(** [save] never touches the object. *)
Lemma save_self (m : Mem W) : self (snd (save host m)) = self m.
Proof.
  destruct (saveAs host (path (self m)) (world m)) as [[e|] w1] eqn:H.
  - rewrite (save_first_failure m e w1 H).
    destruct (is_RuntimeError e); [|reflexivity].
    now destruct (makedirs_p host (dir (self m)) w1) as [[e2|] w2].
  - now rewrite (save_first_success m w1 H).
Qed.

(** C4, as the code has it.  After a first failure of the host's save:
    an exception that is not a [RuntimeError] propagates at once; a
    [RuntimeError], whatever caused it, makes [save] create the directory
    tree and ask the host to save once more, and the outcome of that second
    attempt is the outcome of [save]; a failure to create the directories
    propagates as well.  The log shows every call made. *)
Theorem save_recovery_policy (m : Mem W) (e : exn) (w1 : W) :
  saveAs host (path (self m)) (world m) = (Some e, w1) ->
  (is_RuntimeError e = false ->
   save host m = (inl e, logged w1 [CallSaveAs (path (self m))] m)) /\
  (is_RuntimeError e = true ->
   forall w2, makedirs_p host (dir (self m)) w1 = (None, w2) ->
   save host m =
   (outcome_of (fst (saveAs host (path (self m)) w2)),
    logged (snd (saveAs host (path (self m)) w2))
           [CallSaveAs (path (self m)); CallMakedirs (dir (self m));
            CallSaveAs (path (self m))] m)) /\
  (is_RuntimeError e = true ->
   forall e2 w2, makedirs_p host (dir (self m)) w1 = (Some e2, w2) ->
   save host m =
   (inl e2,
    logged w2 [CallSaveAs (path (self m)); CallMakedirs (dir (self m))] m)).
Proof.
  intros H. rewrite (save_first_failure m e w1 H).
  repeat split.
  - now intros ->.
  - intros -> w2 ->. reflexivity.
  - intros -> e2 w2 ->. reflexivity.
Qed.

(** One round of the loop, spelled out. *)
Lemma scan_scene_eq (scene : string) (L : Z) (m : Mem W) :
  scan_scene scene L m =
  if same_descriptor (descriptor (self m)) scene then
    match nth_error (split "_v" scene) 1 with
    | None => (inl IndexError, m)
    | Some nv1 =>
        match PyStr.int (hd "" (split "." nv1)) with
        | None => (inl ValueError, m)
        | Some v =>
            (inr (if v >? version (self m) then v else L),
             if v =? version (self m) then with_version (L + 1) m else m)
        end
    end
  else (inr L, m).
Proof.
  unfold scan_scene, same_descriptor, split.
  destruct (split_go_cons "_v" 0 "" scene) as (d & tl & E). rewrite E.
  unfold bind at 1. cbn [py_index nth_error ret hd].
  unfold bind at 1. cbn [get_self].
  destruct (d =? descriptor (self m))%string; [|reflexivity].
  unfold bind at 1. unfold py_index at 1.
  destruct tl as [|nv1 tl]; cbn [nth_error raise ret]; [reflexivity|].
  destruct (split_go_cons "." 0 "" nv1) as (x & l & E2). rewrite E2.
  unfold bind at 1. cbn [py_index nth_error ret hd].
  unfold bind at 1. unfold py_int.
  destruct (PyStr.int x) as [v|]; cbn [raise ret]; [|reflexivity].
  unfold bind, get_self, assign_version, modify, ret.
  destruct (v =? version (self m)) eqn:Ev; [|reflexivity].
  apply Z.eqb_eq in Ev. subst v.
  now rewrite Z.gtb_ltb, Z.ltb_irrefl.
Qed.

(** Case analysis on one round of the loop. *)
Ltac scan_scene_cases scene L m :=
  rewrite (scan_scene_eq scene L m);
  destruct (same_descriptor (descriptor (self m)) scene);
  [ destruct (nth_error (split "_v" scene) 1) as [?nv1|];
    [ match goal with
      | |- context [PyStr.int ?x] =>
          destruct (PyStr.int x) as [?v|];
          [ destruct (Z.eqb_spec v (version (self m)));
            destruct (Z.gtb_spec v (version (self m))) | ]
      end | ] | ].

Lemma scan_cons (scene : string) (rest : list string) (L : Z) (m : Mem W) :
  scan (scene :: rest) L m =
  match scan_scene scene L m with
  | (inr L', m') => scan rest L' m'
  | (inl e, m') => (inl e, m')
  end.
Proof. reflexivity. Qed.

(** The scan changes nothing but [self.version]. *)
Lemma scan_frame (scenes : list string) (L : Z) (m : Mem W) :
  world (snd (scan scenes L m)) = world m /\
  calls (snd (scan scenes L m)) = calls m /\
  set_version 0 (self (snd (scan scenes L m))) = set_version 0 (self m).
Proof.
  revert L m; induction scenes as [|scene rest IH]; intros L m;
    [now cbn|].
  rewrite scan_cons. scan_scene_cases scene L m; cbn [snd];
    try (now repeat split).
  all: match goal with
       | |- context [scan _ ?L' ?m'] =>
           destruct (IH L' m') as (Hw & Hc & Hs); rewrite Hw, Hc, Hs
       end; now repeat split.
Qed.

(** The scan reads nothing but the object. *)
Lemma scan_self_only (scenes : list string) (L : Z) (m1 m2 : Mem W) :
  self m1 = self m2 ->
  fst (scan scenes L m1) = fst (scan scenes L m2) /\
  self (snd (scan scenes L m1)) = self (snd (scan scenes L m2)).
Proof.
  revert L m1 m2; induction scenes as [|scene rest IH]; intros L m1 m2 H;
    [now cbn|].
  rewrite !scan_cons, !scan_scene_eq, <- H.
  destruct (same_descriptor (descriptor (self m1)) scene); [|now apply IH].
  destruct (nth_error (split "_v" scene) 1) as [nv1|]; [|now cbn].
  destruct (PyStr.int (hd "" (split "." nv1))) as [v|]; [|now cbn].
  destruct (v =? version (self m1)); apply IH; [|exact H].
  unfold with_version; cbn [self]. now rewrite H.
Qed.

(** Scenes of another descriptor can be dropped from the listing. *)
Lemma scan_filter (d : string) (scenes : list string) (L : Z) (m : Mem W) :
  descriptor (self m) = d ->
  scan scenes L m = scan (filter (same_descriptor d) scenes) L m.
Proof.
  revert L m; induction scenes as [|scene rest IH]; intros L m Hd;
    [reflexivity|].
  cbn [filter]. destruct (same_descriptor d scene) eqn:E.
  - rewrite !scan_cons.
    destruct (scan_scene scene L m) as [[e|L'] m'] eqn:Es; [reflexivity|].
    apply IH.
    pose proof (scan_frame [scene] L m) as (_ & _ & Hs).
    rewrite scan_cons, Es in Hs. cbn [scan ret snd] in Hs.
    rewrite <- Hd.
    change (descriptor (set_version 0 (self m')) =
            descriptor (set_version 0 (self m))).
    now rewrite Hs.
  - rewrite scan_cons, scan_scene_eq, Hd, E. now apply IH.
Qed.

(** [self.version] never exceeds [largest_number + 1], and no round of the
    loop lowers it. *)
Lemma scan_monotone (scenes : list string) (L : Z) (m : Mem W) :
  version (self m) <= L + 1 ->
  version (self m) <= version (self (snd (scan scenes L m))).
Proof.
  revert L m; induction scenes as [|scene rest IH]; intros L m H;
    [cbn; lia|].
  rewrite scan_cons. scan_scene_cases scene L m; cbn [snd]; try lia;
    try (apply IH; lia).
  etransitivity; [|apply IH]; cbn; lia.
Qed.

(** Every save request of [save] names [path()], and there is one. *)
Lemma save_calls (m : Mem W) :
  exists cs,
    calls (snd (save host m)) =
      calls m ++ CallSaveAs (path (self m)) :: cs /\
    forall p, In (CallSaveAs p) cs -> p = path (self m).
Proof.
  destruct (saveAs host (path (self m)) (world m)) as [[e|] w1] eqn:H.
  - rewrite (save_first_failure m e w1 H).
    destruct (is_RuntimeError e).
    + destruct (makedirs_p host (dir (self m)) w1) as [[e2|] w2];
        cbn [snd logged calls];
        eexists; (split; [reflexivity|]);
        intros p Hp; cbn in Hp; intuition congruence.
    + exists []. split; [reflexivity | intros p []].
  - rewrite (save_first_success m w1 H). exists [].
    split; [reflexivity | intros p []].
Qed.

(** [increment_and_save]: list, scan, then save. *)
Lemma increment_and_save_eq (m : Mem W) :
  increment_and_save host m =
  match scan (scenes_of host m) (version (self m)) (listed m) with
  | (inl e, m1) => (inl e, m1)
  | (inr _, m1) =>
      match save host m1 with
      | (inl e, m2) => (inl e, m2)
      | (inr _, m2) => (inr None, m2)
      end
  end.
Proof.
  unfold increment_and_save, bind, get_self, host_getFileList, ret.
  cbn [self]. unfold scenes_of, listed, logged.
  destruct (scan _ _ _) as [[e|L] m1]; [reflexivity|].
  now destruct (save host m1) as [[e|r] m2].
Qed.

(** The object after [increment_and_save] is the object after the scan. *)
Lemma increment_and_save_self (m : Mem W) :
  self (snd (increment_and_save host m)) =
  self (snd (scan (scenes_of host m) (version (self m)) (listed m))).
Proof.
  rewrite increment_and_save_eq.
  destruct (scan _ _ (listed m)) as [[e|L] m1]; [reflexivity|].
  cbn [snd]. rewrite <- (save_self m1).
  now destruct (save host m1) as [[e|r] m2].
Qed.

(** The log after [increment_and_save]. *)
Lemma increment_and_save_calls (m : Mem W) :
  match fst (scan (scenes_of host m) (version (self m)) (listed m)) with
  | inl _ =>
      new_calls m (snd (increment_and_save host m)) =
      [CallGetFileList (dir (self m))]
  | inr _ =>
      exists cs,
        new_calls m (snd (increment_and_save host m)) =
          CallGetFileList (dir (self m))
          :: CallSaveAs (path (self (snd (increment_and_save host m)))) :: cs /\
        forall p, In (CallSaveAs p) cs ->
                  p = path (self (snd (increment_and_save host m)))
  end.
Proof.
  pose proof (increment_and_save_self m) as Hself.
  rewrite increment_and_save_eq in *.
  pose proof (scan_frame (scenes_of host m) (version (self m)) (listed m))
    as (_ & Hc & _).
  destruct (scan _ _ (listed m)) as [[e|L] m1]; cbn [fst snd] in *.
  - unfold new_calls. rewrite Hc. cbn [listed logged calls].
    rewrite skipn_app, skipn_all, Nat.sub_diag. reflexivity.
  - destruct (save_calls m1) as (cs & Hcs & Hp).
    assert (E : calls (snd (let (s, m2) := save host m1 in
                            match s with
                            | inl e => (inl e, m2)
                            | inr _ => (@inr exn (option string) None, m2)
                            end)) = calls (snd (save host m1)))
      by now destruct (save host m1) as [[e|r] m2].
    exists cs. unfold new_calls. rewrite E, Hcs, Hc, Hself.
    cbn [listed logged calls]. rewrite <- app_assoc.
    rewrite skipn_app, skipn_all, Nat.sub_diag. split; [reflexivity|].
    exact Hp.
Qed.

(** C2, as the code has it.  The scan is seeded with [self.version] (see
    [increment_and_save_eq]; here [m0] is the state it starts from).  For a
    sibling of the same descriptor with version [v], met after any part
    [pre] of the listing: [largest_number] becomes [v] exactly when [v]
    exceeds [self.version] as it stands at that point of the scan (which is
    never below the version before the call, so such a [v] exceeds that one
    too), and [self.version] becomes [largest_number + 1] exactly when [v]
    equals it. *)
Theorem scan_largest_number_rule
        (pre : list string) (scene : string) (m0 m : Mem W) (L : Z)
        (nv1 : string) (v : Z) :
  scan pre (version (self m0)) m0 = (inr L, m) ->
  same_descriptor (descriptor (self m)) scene = true ->
  nth_error (split "_v" scene) 1 = Some nv1 ->
  PyStr.int (hd "" (split "." nv1)) = Some v ->
  version (self m0) <= version (self m) /\
  scan_scene scene L m =
    (inr (if v >? version (self m) then v else L),
     if v =? version (self m) then with_version (L + 1) m else m) /\
  (v > version (self m) -> v > version (self m0)).
Proof.
  intros Hpre Hd Hnv Hv.
  assert (Hmono : version (self m0) <= version (self m)).
  { pose proof (scan_monotone pre (version (self m0)) m0) as H.
    rewrite Hpre in H. apply H. lia. }
  repeat split; [exact Hmono | | lia].
  now rewrite scan_scene_eq, Hd, Hnv, Hv.
Qed.

(** C8.  A listed name without "_v" is its own first piece: the loop skips
    it when it differs from [self.descriptor], and fails with [IndexError]
    when it equals [self.descriptor]. *)
Theorem scan_scene_without_separator (scene : string) (L : Z) (m : Mem W) :
  contains "_v" scene = false ->
  scan_scene scene L m =
  if (scene =? descriptor (self m))%string
  then (inl IndexError, m)
  else (inr L, m).
Proof.
  intros H. rewrite scan_scene_eq. unfold same_descriptor.
  rewrite (split_absent "_v" scene H). reflexivity.
Qed.

(** C9.  Two runs on the same object whose listings agree on the scenes of
    the object's descriptor leave the same object, and ask the host to save
    the same paths. *)
Theorem increment_and_save_other_descriptors (m1 m2 : Mem W) :
  self m1 = self m2 ->
  filter (same_descriptor (descriptor (self m1))) (scenes_of host m1) =
  filter (same_descriptor (descriptor (self m1))) (scenes_of host m2) ->
  self (snd (increment_and_save host m1)) =
  self (snd (increment_and_save host m2)) /\
  forall p,
    In (CallSaveAs p) (new_calls m1 (snd (increment_and_save host m1))) <->
    In (CallSaveAs p) (new_calls m2 (snd (increment_and_save host m2))).
Proof.
  intros Hself Hfilter.
  assert (Hscan :
    fst (scan (scenes_of host m1) (version (self m1)) (listed m1)) =
    fst (scan (scenes_of host m2) (version (self m2)) (listed m2)) /\
    self (snd (scan (scenes_of host m1) (version (self m1)) (listed m1))) =
    self (snd (scan (scenes_of host m2) (version (self m2)) (listed m2)))).
  { rewrite (scan_filter (descriptor (self m1)) (scenes_of host m1))
      by reflexivity.
    rewrite (scan_filter (descriptor (self m1)) (scenes_of host m2))
      by (cbn [listed logged self]; now rewrite Hself).
    rewrite Hfilter, <- Hself. apply scan_self_only.
    cbn [listed logged self]. exact Hself. }
  destruct Hscan as [Hfst Hsnd].
  assert (Hfinal : self (snd (increment_and_save host m1)) =
                   self (snd (increment_and_save host m2)))
    by now rewrite !increment_and_save_self.
  split; [exact Hfinal|].
  pose proof (increment_and_save_calls m1) as H1.
  pose proof (increment_and_save_calls m2) as H2.
  rewrite <- Hfst in H2.
  destruct (fst (scan (scenes_of host m1) (version (self m1)) (listed m1))).
  - rewrite H1, H2. intros p. cbn. intuition discriminate.
  - destruct H1 as (cs1 & -> & Hp1). destruct H2 as (cs2 & -> & Hp2).
    rewrite <- Hfinal in *. intros p. cbn [In].
    split; intros [H|[H|H]]; try discriminate;
      right; left; try exact H;
      (rewrite (Hp1 p H) || rewrite (Hp2 p H)); reflexivity.
Qed.

(** C1.  With descriptor "ship" and version 1, over a directory holding
    ship_v001.ma and ship_v002.ma: when the host lists them in ascending
    order the object ends at version 2, the version of a file that is
    already there; in descending order it ends at version 3. *)
Theorem increment_and_save_two_siblings (m : Mem W) :
  descriptor (self m) = "ship" ->
  version (self m) = 1 ->
  (scenes_of host m = ["ship_v001.ma"; "ship_v002.ma"] ->
   version (self (snd (increment_and_save host m))) = 2) /\
  (scenes_of host m = ["ship_v002.ma"; "ship_v001.ma"] ->
   version (self (snd (increment_and_save host m))) = 3).
Proof.
  destruct m as [w [dir0 d v e] cs]. cbn [self descriptor version].
  intros -> ->.
  split; intros Hl; rewrite increment_and_save_self, Hl; reflexivity.
Qed.

(** C10.  When the scan completes, [self.version] after the call is not
    below its value before, and the first save request names the path of
    that version. *)
Theorem increment_and_save_never_decreases (m m1 : Mem W) (L : Z) :
  scan (scenes_of host m) (version (self m)) (listed m) = (inr L, m1) ->
  version (self m) <= version (self (snd (increment_and_save host m))) /\
  self (snd (increment_and_save host m)) = self m1 /\
  exists cs,
    new_calls m (snd (increment_and_save host m)) =
    CallGetFileList (dir (self m))
    :: CallSaveAs (path (self (snd (increment_and_save host m)))) :: cs.
Proof.
  intros Hscan.
  pose proof (increment_and_save_self m) as Hself.
  pose proof (increment_and_save_calls m) as Hcalls.
  pose proof (scan_monotone (scenes_of host m) (version (self m)) (listed m))
    as Hmono.
  rewrite Hscan in *. cbn [fst snd] in *.
  repeat split.
  - rewrite Hself. apply Hmono. cbn. lia.
  - exact Hself.
  - destruct Hcalls as (cs & Hcs & _). now exists cs.
Qed.

End MethodFacts.

(** ** Runs on the in-memory host *)

Section Runs.

Import FakeHost Scenario.

(** C5.  [save] returns [None] whenever it returns; on a disk where the
    directory exists the file is written at [path()] and the caller still
    gets [None]. *)
Theorem save_returns_none :
  (forall (W : Type) (h : SceneHost W) (m : Mem W),
      fst (save h m) = inr None \/ exists e, fst (save h m) = inl e) /\
  (let m := start (proj "" [] false) (ship 1) in
   path (self m) = "/proj/ship_v001.ma" /\
   fst (save host m) = inr None /\
   files (world (snd (save host m))) = ["/proj/ship_v001.ma"]).
Proof.
  split; [|now vm_compute].
  intros W h m.
  destruct (saveAs h (path (self m)) (world m)) as [[e|] w1] eqn:H.
  - rewrite (save_first_failure W h m e w1 H).
    destruct (is_RuntimeError e); [|right; now exists e].
    destruct (makedirs_p h (dir (self m)) w1) as [[e2|] w2];
      [right; now exists e2|].
    cbn [fst]. destruct (fst (saveAs h (path (self m)) w2)) as [e3|];
      [right; now exists e3 | now left].
  - rewrite (save_first_success W h m w1 H). now left.
Qed.

(** C2 as stated fails: with [self.version = 1] and siblings 5, 1, 3 in
    listing order, two siblings exceed the version before the call and the
    last of them is 3, yet [largest_number] ends at 5 (and the version
    at 6). *)
Lemma scan_largest_is_not_last_exceeding :
  let m := start unordered (ship 1) in
  scenes_of host m = ["ship_v005.ma"; "ship_v001.ma"; "ship_v003.ma"] /\
  fst (scan (scenes_of host m) (version (self m)) (listed m)) = inr 5 /\
  version (self (snd (increment_and_save host m))) = 6 /\
  Spec.last_exceeding (version (self m)) [5; 1; 3] = 3.
Proof. now vm_compute. Qed.

(** C3 as stated fails: descriptor "ship", version 1 and the dot-free
    extension "a_v" give a file name that [__init__] rejects. *)
Lemma init_rejects_separator_in_extension :
  let sf := {| _dir := "/proj"; descriptor := "ship"; version := 1;
               ext := "a_v" |} in
  let w := proj "/proj/ship_v001.a_v" [] false in
  PyStr.contains "_v" (descriptor sf) = false /\
  PyStr.contains "." (ext sf) = false /\
  isModified host w = false /\
  Path.name (sceneName host w) = basename sf /\
  fst (init host "" "main" 1 "ma" w) = inl NamingConventionError.
Proof. now vm_compute. Qed.

(** C4 as stated fails: the directory exists and the host refuses the save
    for another reason (a read-only disk); [save] still creates directories
    and retries. *)
Lemma save_recovers_other_failures :
  let m := start (proj "" [] true) (ship 1) in
  dir_exists (dir (self m)) (world m) = true /\
  fst (saveAs host (path (self m)) (world m)) =
    Some (RuntimeError "Permission denied") /\
  calls (snd (save host m)) =
    [CallSaveAs "/proj/ship_v001.ma"; CallMakedirs "/proj";
     CallSaveAs "/proj/ship_v001.ma"].
Proof. now vm_compute. Qed.

(** C7 as stated fails, twice: a version text that is not a number raises
    [ValueError], not the naming convention error; and with two dots the
    cut is at the first one, so "ship_v001.tar.gz" is accepted with
    extension "tar" where the sentence has "001.tar" fail to parse. *)
Lemma init_differs_from_last_dot_parse :
  (let w := proj "/proj/ship_vabc.ma" [] false in
   PyStr.split "_v" (Path.name (sceneName host w)) = ["ship"; "abc.ma"] /\
   fst (init host "" "main" 1 "ma" w) = inl ValueError /\
   Spec.construct "/proj" "ship" "abc.ma" = inl NamingConventionError) /\
  (let w := proj "/proj/ship_v001.tar.gz" [] false in
   PyStr.split "_v" (Path.name (sceneName host w)) = ["ship"; "001.tar.gz"] /\
   fst (init host "" "main" 1 "ma" w) =
     inr {| _dir := "/proj"; descriptor := "ship"; version := 1;
            ext := "tar" |} /\
   Spec.construct "/proj" "ship" "001.tar.gz" = inl NamingConventionError).
Proof. now vm_compute. Qed.

(** *** Instances *)

Lemma increment_and_save_two_siblings_witness :
  version (self (snd (increment_and_save host (start ascending (ship 1))))) = 2
  /\ version (self (snd (increment_and_save host (start descending (ship 1))))) = 3.
Proof.
  split.
  - apply (increment_and_save_two_siblings _ host (start ascending (ship 1)));
      reflexivity.
  - apply (increment_and_save_two_siblings _ host (start descending (ship 1)));
      reflexivity.
Defined.

Lemma scan_largest_number_rule_witness :
  let m0 := start unordered (ship 1) in
  let m := with_version 6 m0 in
  scan ["ship_v005.ma"; "ship_v001.ma"] 1 m0 = (inr 5, m) /\
  scan_scene "ship_v003.ma" 5 m = (inr 5, m).
Proof.
  split; [reflexivity|].
  apply (scan_largest_number_rule _ ["ship_v005.ma"; "ship_v001.ma"]
           "ship_v003.ma" (start unordered (ship 1))
           (with_version 6 (start unordered (ship 1))) 5 "003.ma" 3);
    reflexivity.
Defined.

Lemma init_basename_roundtrip_witness :
  init host "" "main" 1 "ma" ascending = (inr (ship 1), ascending).
Proof.
  apply (init_basename_roundtrip _ host ascending "" "main" 1 "ma"
           "/proj" "ship" 1 "ma"); (reflexivity || lia).
Defined.

Lemma save_recovery_policy_witness :
  let sf := {| _dir := "/a/b/c"; descriptor := "ship"; version := 1;
               ext := "ma" |} in
  fst (save host (start empty_disk sf)) = inr None /\
  calls (snd (save host (start empty_disk sf))) =
    [CallSaveAs "/a/b/c/ship_v001.ma"; CallMakedirs "/a/b/c";
     CallSaveAs "/a/b/c/ship_v001.ma"].
Proof.
  pose (sf := {| _dir := "/a/b/c"; descriptor := "ship"; version := 1;
                 ext := "ma" |}).
  destruct (save_recovery_policy _ host (start empty_disk sf)
              (RuntimeError "Missing directory") empty_disk eq_refl)
    as (_ & H & _).
  cbv zeta. fold sf. rewrite (H eq_refl _ eq_refl). split; reflexivity.
Defined.

Lemma init_naming_error_iff_witness :
  fst (init host "" "main" 1 "ma" (proj "/proj/scene.ma" [] false)) =
  inl NamingConventionError.
Proof.
  apply (init_naming_error_iff _ host (proj "/proj/scene.ma" [] false));
    reflexivity.
Defined.

Lemma init_second_part_first_dot_witness :
  init host "" "main" 1 "ma" (proj "/proj/ship_v001.tar.gz" [] false) =
  (inr {| _dir := "/proj"; descriptor := "ship"; version := 1; ext := "tar" |},
   proj "/proj/ship_v001.tar.gz" [] false).
Proof.
  apply (init_second_part_first_dot _ host
           (proj "/proj/ship_v001.tar.gz" [] false) "" "main" 1 "ma"
           "ship" "001" "tar.gz"); reflexivity.
Defined.

Lemma scan_scene_without_separator_witness :
  scan_scene "ship" 1 (start bare_name (ship 1)) =
    (inl IndexError, start bare_name (ship 1)) /\
  fst (increment_and_save host (start bare_name (ship 1))) = inl IndexError.
Proof.
  split; [|reflexivity].
  apply (scan_scene_without_separator _ "ship" 1 (start bare_name (ship 1))).
  reflexivity.
Defined.

Lemma increment_and_save_other_descriptors_witness :
  self (snd (increment_and_save host (start ascending (ship 1)))) =
  self (snd (increment_and_save host (start crowded (ship 1)))).
Proof.
  refine (proj1 (increment_and_save_other_descriptors _ host
                   (start ascending (ship 1)) (start crowded (ship 1))
                   eq_refl _)).
  vm_compute. reflexivity.
Defined.

Lemma increment_and_save_never_decreases_witness :
  1 <= version (self (snd (increment_and_save host
                             (start descending (ship 1))))).
Proof.
  apply (increment_and_save_never_decreases _ host
           (start descending (ship 1))
           (with_version 3 (listed (start descending (ship 1)))) 2).
  reflexivity.
Defined.

End Runs.

(** ** Formatting and reading back a version *)

Module NumberFacts.

Import PyStr PyStrFacts.

Lemma digit_of_digit_char (d : Z) :
  0 <= d <= 9 -> digit_of (digit_char d) = Some d.
Proof.
  intros H.
  assert (E : d = 0 \/ d = 1 \/ d = 2 \/ d = 3 \/ d = 4 \/ d = 5 \/ d = 6 \/
              d = 7 \/ d = 8 \/ d = 9) by lia.
  repeat (destruct E as [->|E]; [reflexivity|]). now subst.
Qed.

Lemma is_digit_digit_char (d : Z) : 0 <= d <= 9 -> is_digit (digit_char d) = true.
Proof. intros H. unfold is_digit. now rewrite digit_of_digit_char. Qed.

Lemma mod10_range (n : Z) : 0 <= n mod 10 <= 9.
Proof. pose proof (Z.mod_pos_bound n 10). lia. Qed.

(** The digits written by [digits_fuel] are digits. *)
Lemma digits_fuel_chars (fuel : nat) (n : Z) (acc : string) :
  forall_chars is_digit acc = true ->
  forall_chars is_digit (digits_fuel fuel n acc) = true.
Proof.
  revert n acc; induction fuel as [|f IH]; intros n acc H; [exact H|].
  cbn [digits_fuel].
  assert (H' : forall_chars is_digit (String (digit_char (n mod 10)) acc) = true).
  { cbn [forall_chars]. now rewrite is_digit_digit_char, H by apply mod10_range. }
  destruct (n / 10 =? 0); [exact H' | now apply IH].
Qed.

(** Reading the digits written for [n] continues from the number [n]. *)
Lemma int_digits_fuel (f : nat) (n : Z) (acc : string) (p : bool) :
  0 <= n < 10 ^ Z.of_nat (S f) ->
  int_digits 0 p (digits_fuel (S f) n acc) = int_digits n true acc.
Proof.
  revert n acc p; induction f as [|f IH]; intros n acc p H.
  - cbn [digits_fuel]. change (10 ^ Z.of_nat 1) with 10 in H.
    rewrite Z.div_small, Z.mod_small by lia. cbn [Z.eqb int_digits].
    rewrite digit_of_digit_char by lia. f_equal.
  - remember (S f) as f1 eqn:Ef. cbn [digits_fuel].
    destruct (Z.eqb_spec (n / 10) 0) as [E|E].
    + cbn [int_digits]. rewrite digit_of_digit_char by apply mod10_range.
      f_equal. pose proof (Z.div_mod n 10). lia.
    + subst f1. rewrite IH.
      * cbn [int_digits]. rewrite digit_of_digit_char by apply mod10_range.
        f_equal. pose proof (Z.div_mod n 10). lia.
      * split; [apply Z.div_pos; lia|].
        apply Z.div_lt_upper_bound; [lia|].
        rewrite <- Z.pow_succ_r by lia. rewrite <- Nat2Z.inj_succ. lia.
Qed.

Lemma decimal_fuel_enough (n : Z) :
  0 <= n -> n < 10 ^ Z.of_nat (S (Z.to_nat (Z.log2 n))).
Proof.
  intros H. rewrite Nat2Z.inj_succ, Z2Nat.id by apply Z.log2_nonneg.
  destruct (Z.eq_dec n 0) as [->|Hn]; [reflexivity|].
  pose proof (Z.log2_spec n ltac:(lia)) as [_ Hlt].
  eapply Z.lt_le_trans; [exact Hlt|].
  apply Z.pow_le_mono_l. split; [lia|lia].
Qed.

Lemma int_digits_zeros (k : nat) (p : bool) (t : string) :
  int_digits 0 p (zeros k ++ t) =
  int_digits 0 (match k with O => p | S _ => true end) t.
Proof.
  revert p; induction k as [|k IH]; intros p; [reflexivity|].
  cbn [zeros append int_digits]. change (digit_of "0") with (Some 0).
  cbn [Z.mul Z.add]. rewrite IH. now destruct k.
Qed.

Lemma int_digits_zero_pad (w : nat) (n : Z) (p : bool) :
  0 <= n -> int_digits 0 p (zero_pad w (decimal n)) = Some n.
Proof.
  intros H. unfold zero_pad, decimal. rewrite int_digits_zeros.
  now rewrite int_digits_fuel
    by (split; [exact H | now apply decimal_fuel_enough]).
Qed.

Lemma forall_chars_app (P : ascii -> bool) (a b : string) :
  forall_chars P (a ++ b) = forall_chars P a && forall_chars P b.
Proof.
  induction a as [|c a IH]; [reflexivity|].
  cbn [append forall_chars]. now rewrite IH, andb_assoc.
Qed.

Lemma zeros_chars (k : nat) : forall_chars is_digit (zeros k) = true.
Proof. induction k as [|k IH]; [reflexivity | exact IH]. Qed.

Lemma zero_pad_chars (w : nat) (n : Z) :
  forall_chars is_digit (zero_pad w (decimal n)) = true.
Proof.
  unfold zero_pad, decimal. rewrite forall_chars_app, zeros_chars.
  now apply digits_fuel_chars.
Qed.

Lemma is_digit_not_space (c : ascii) : is_digit c = true -> is_space c = false.
Proof.
  destruct c as [[] [] [] [] [] [] [] []]; intros H;
    solve [reflexivity | discriminate H].
Qed.

Lemma rstrip_no_space (s : string) :
  forall_chars (fun c => negb (is_space c)) s = true -> rstrip s = s.
Proof.
  induction s as [|c s IH]; intros H; [reflexivity|].
  cbn [forall_chars] in H. apply andb_true_iff in H as [Hc Hs].
  apply negb_true_iff in Hc.
  cbn [rstrip]. now rewrite IH, Hc by exact Hs.
Qed.

Lemma lstrip_no_space (s : string) :
  forall_chars (fun c => negb (is_space c)) s = true -> lstrip s = s.
Proof.
  destruct s as [|c s]; intros H; [reflexivity|].
  cbn [forall_chars] in H. apply andb_true_iff in H as [Hc _].
  apply negb_true_iff in Hc. cbn [lstrip]. now rewrite Hc.
Qed.

Lemma digits_no_space (s : string) :
  forall_chars is_digit s = true ->
  forall_chars (fun c => negb (is_space c)) s = true.
Proof.
  apply forall_chars_impl. intros c Hc.
  now rewrite is_digit_not_space.
Qed.

(** On text made of digits, [int] is the plain digit reader. *)
Lemma int_of_digits (s : string) :
  forall_chars is_digit s = true -> int s = int_digits 0 false s.
Proof.
  intros H. unfold int.
  rewrite rstrip_no_space, lstrip_no_space by now apply digits_no_space.
  destruct s as [|c s]; [reflexivity|].
  cbn [forall_chars] in H. apply andb_true_iff in H as [Hc _].
  destruct c as [[] [] [] [] [] [] [] []];
    solve [reflexivity | discriminate Hc].
Qed.

(** On a minus sign followed by digits, [int] negates what the digits
    read. *)
Lemma int_of_minus_digits (s : string) :
  forall_chars is_digit s = true ->
  int (String "-" s) = option_map Z.opp (int_digits 0 false s).
Proof.
  intros H. unfold int.
  assert (Hs : forall_chars (fun c => negb (is_space c)) (String "-" s) = true).
  { cbn [forall_chars]. now rewrite digits_no_space. }
  now rewrite rstrip_no_space, lstrip_no_space.
Qed.

Lemma format_03d_chars (v : Z) :
  forall_chars is_number_char (format_03d v) = true.
Proof.
  unfold format_03d. destruct (v <? 0).
  - cbn [forall_chars]. change (is_number_char "-") with true.
    cbn [andb]. generalize (zero_pad_chars 2 (- v)).
    apply forall_chars_impl. intros c Hc. unfold is_number_char.
    now rewrite Hc.
  - generalize (zero_pad_chars 3 v).
    apply forall_chars_impl. intros c Hc. unfold is_number_char.
    now rewrite Hc.
Qed.

End NumberFacts.

(** ** File names for every version *)

Section BasenameFacts.

Import PyStr PyStrFacts NumberFacts.

Lemma int_format (v : Z) : PyStr.int (format_03d v) = Some v.
Proof.
  unfold format_03d. destruct (Z.ltb_spec v 0) as [Hneg|Hpos].
  - rewrite int_of_minus_digits by apply zero_pad_chars.
    rewrite int_digits_zero_pad by lia. cbn [option_map]. f_equal. lia.
  - rewrite int_of_digits by apply zero_pad_chars.
    now apply int_digits_zero_pad.
Qed.

(** [int] reads back what [format(v, "03d")] writes, for every integer:
    padded, longer than three digits, or negative. *)
Theorem int_format_03d (v : Z) : PyStr.int (format_03d v) = Some v.
Proof. apply int_format. Qed.

Lemma length_app (a b : string) :
  String.length (a ++ b) = (String.length a + String.length b)%nat.
Proof. induction a as [|c a IH]; cbn; [reflexivity | now rewrite IH]. Qed.

Lemma length_zeros (k : nat) : String.length (zeros k) = k.
Proof. induction k as [|k IH]; cbn; [reflexivity | now rewrite IH]. Qed.

(** The version field is never narrower than three characters, and is
    exactly three digits for versions 0 to 999. *)
Theorem format_03d_width (v : Z) :
  (3 <= String.length (format_03d v))%nat /\
  (0 <= v <= 999 ->
   String.length (format_03d v) = 3%nat /\
   forall_chars is_digit (format_03d v) = true).
Proof.
  split.
  - unfold format_03d, zero_pad. destruct (v <? 0); cbn [String.length];
      rewrite length_app, length_zeros; lia.
  - intros Hv. split.
    + destruct (Z.eq_dec v 0) as [->|Hn]; [reflexivity|].
      apply Nat.eqb_eq.
      apply (check_range (fun v => (String.length (format_03d v) =? 3)%nat) 999);
        [vm_compute; reflexivity | lia].
    + unfold format_03d. destruct (Z.ltb_spec v 0); [lia|].
      apply zero_pad_chars.
Qed.

Lemma format_03d_avoids (x : ascii) (v : Z) :
  is_number_char x = false ->
  forall_chars (fun c => negb (c =? x)%char) (format_03d v) = true.
Proof.
  intros Hx. generalize (format_03d_chars v). apply forall_chars_impl.
  intros c Hc. apply negb_true_iff, Ascii.eqb_neq. congruence.
Qed.

(** How the name written by [basename] splits on "_v". *)
Lemma basename_split (sf : SceneFile) :
  contains "_v" (descriptor sf) = false ->
  contains "_v" (ext sf) = false ->
  split "_v" (basename sf) =
  [descriptor sf; (format_03d (version sf) ++ "." ++ ext sf)%string].
Proof.
  intros Hd He. unfold basename.
  apply split_underscore_v; [exact Hd|].
  rewrite contains_no_start
    by (apply no_start_first_char, format_03d_avoids; reflexivity).
  cbn [append contains prefix].
  destruct (ascii_dec "_" ".") as [H|_]; [discriminate H | exact He].
Qed.

(** How its second piece splits on ".". *)
Lemma version_ext_split (v : Z) (e : string) :
  contains "." e = false ->
  split "." (format_03d v ++ "." ++ e) = [format_03d v; e].
Proof.
  intros He. unfold split.
  rewrite split_go_no_start
    by (apply no_start_first_char, format_03d_avoids; reflexivity).
  rewrite (split_go_sep "." ""). cbn [append].
  now rewrite split_go_absent.
Qed.

(** [basename] tells objects apart: with descriptors free of "_v" and
    extensions free of "_v" and ".", equal names mean equal descriptor,
    version and extension. *)
Theorem basename_injective (sf1 sf2 : SceneFile) :
  contains "_v" (descriptor sf1) = false ->
  contains "_v" (descriptor sf2) = false ->
  contains "_v" (ext sf1) = false -> contains "." (ext sf1) = false ->
  contains "_v" (ext sf2) = false -> contains "." (ext sf2) = false ->
  basename sf1 = basename sf2 ->
  descriptor sf1 = descriptor sf2 /\ version sf1 = version sf2 /\
  ext sf1 = ext sf2.
Proof.
  intros Hd1 Hd2 He1 Hx1 He2 Hx2 E.
  pose proof (basename_split sf1 Hd1 He1) as S1.
  pose proof (basename_split sf2 Hd2 He2) as S2.
  rewrite E, S2 in S1. injection S1 as Ed Erest.
  pose proof (version_ext_split (version sf1) (ext sf1) Hx1) as T1.
  pose proof (version_ext_split (version sf2) (ext sf2) Hx2) as T2.
  cbn [append] in Erest, T1, T2.
  rewrite <- Erest, T2 in T1. injection T1 as Ev Ee.
  repeat split; [now symmetry | | now symmetry].
  pose proof (int_format (version sf1)) as I1.
  rewrite <- Ev, int_format in I1. now injection I1.
Qed.

End BasenameFacts.

(** ** More on construction from the open scene *)

Section InitMore.

Variable W : Type.
Variable host : SceneHost W.

Import PyStr PyStrFacts NumberFacts.

Lemma init_basename_any
      (w : W) (dir0 d0 : string) (v0 : Z) (e0 : string) (sf : SceneFile) :
  isModified host w = false ->
  Path.name (sceneName host w) = basename sf ->
  contains "_v" (descriptor sf) = false ->
  contains "." (ext sf) = false ->
  contains "_v" (ext sf) = false ->
  init host dir0 d0 v0 e0 w =
  (inr {| _dir := Path.parent (sceneName host w); descriptor := descriptor sf;
          version := version sf; ext := ext sf |}, w).
Proof.
  intros Hmod Hname Hd Hdot He.
  pose proof (basename_split sf Hd He) as Hsplit. rewrite <- Hname in Hsplit.
  rewrite (init_two_parts W host w dir0 d0 v0 e0 _ _ Hmod Hsplit).
  rewrite version_ext_split by exact Hdot.
  unfold bind, py_index, py_int, ret. cbn [nth_error].
  now rewrite int_format.
Qed.

(** The round trip of the naming convention holds for every integer
    version, not only for 1 to 999. *)
Theorem init_basename_roundtrip_any_version
        (w : W) (dir0 d0 : string) (v0 : Z) (e0 : string) (sf : SceneFile) :
  isModified host w = false ->
  Path.name (sceneName host w) = basename sf ->
  contains "_v" (descriptor sf) = false ->
  contains "." (ext sf) = false ->
  contains "_v" (ext sf) = false ->
  init host dir0 d0 v0 e0 w =
  (inr {| _dir := Path.parent (sceneName host w); descriptor := descriptor sf;
          version := version sf; ext := ext sf |}, w).
Proof. apply init_basename_any. Qed.

(** [__init__] can only fail when an unmodified scene is open, and then
    only with the naming error, [ValueError] or [IndexError]; it leaves the
    world as it was. *)
Theorem init_failures (w : W) (dir0 d0 : string) (v0 : Z) (e0 : string) (e : exn) :
  fst (init host dir0 d0 v0 e0 w) = inl e ->
  isModified host w = false /\
  (e = NamingConventionError \/ e = ValueError \/ e = IndexError).
Proof.
  unfold init, bind at 1, get.
  destruct (isModified host w); [discriminate|].
  intros H. split; [reflexivity|].
  destruct (length (split "_v" (Path.name (sceneName host w))) =? 2)%nat;
    cbn [negb] in H; [|cbn in H; left; congruence].
  revert H. unfold bind, py_index, py_int, ret, raise.
  repeat match goal with
         | |- context [match nth_error ?l ?i with _ => _ end] =>
             destruct (nth_error l i); cbn [fst]
         | |- context [match PyStr.int ?x with _ => _ end] =>
             destruct (PyStr.int x); cbn [fst]
         end; intros H; try discriminate H;
    injection H as <-; auto.
Qed.

(** A second piece without a dot, in ASCII: the version text is converted
    first, so a text that is no integer raises [ValueError]; otherwise the
    missing extension raises [IndexError]. *)
Theorem init_missing_dot
        (w : W) (dir0 d0 : string) (v0 : Z) (e0 : string) (d nv1 : string) :
  isModified host w = false ->
  split "_v" (Path.name (sceneName host w)) = [d; nv1] ->
  contains "." nv1 = false ->
  ascii_text nv1 = true ->
  init host dir0 d0 v0 e0 w =
  (match PyStr.int nv1 with
   | None => inl ValueError
   | Some _ => inl IndexError
   end, w).
Proof.
  intros Hmod Hsplit Hdot _.
  rewrite (init_two_parts W host w dir0 d0 v0 e0 d nv1 Hmod Hsplit).
  rewrite split_absent by exact Hdot.
  unfold bind, py_index, py_int, ret, raise. cbn [nth_error].
  now destruct (PyStr.int nv1).
Qed.

Lemma prefix_underscore_v_inv (s : string) :
  prefix "_v" s = true -> exists b, s = ("_v" ++ b)%string.
Proof.
  destruct s as [|c [|c2 s]]; cbn [prefix].
  - discriminate.
  - destruct (ascii_dec "_" c); discriminate.
  - destruct (ascii_dec "_" c) as [<-|]; [|discriminate].
    destruct (ascii_dec "v" c2) as [<-|]; [|discriminate].
    intros _. now exists s.
Qed.

(** The first "_v" of a text that has one. *)
Lemma first_underscore_v (s : string) :
  contains "_v" s = true ->
  exists a b, s = (a ++ "_v" ++ b)%string /\ contains "_v" a = false.
Proof.
  induction s as [|c s IH]; intros H; [discriminate H|].
  cbn [contains] in H. destruct (prefix "_v" (String c s)) eqn:Hp.
  - destruct (prefix_underscore_v_inv _ Hp) as [b ->].
    now exists "", b.
  - cbn [orb] in H. destruct (IH H) as (a & b & -> & Ha).
    exists (String c a), b. split; [reflexivity|].
    cbn [contains]. rewrite Ha, orb_false_r.
    destruct a as [|c2 a]; cbn [append prefix] in *.
    + now destruct (ascii_dec "_" c).
    + destruct (ascii_dec "_" c); [|reflexivity].
      destruct (ascii_dec "v" c2); [|reflexivity].
      now destruct a.
Qed.

Lemma contains_underscore_v_app (a b : string) :
  contains "_v" (a ++ "_v" ++ b) = true.
Proof.
  induction a as [|c a IH].
  - cbn [append contains].
    change (String "_" (String "v" b)) with ("_v" ++ b)%string.
    now rewrite prefix_refl_app.
  - cbn [append contains]. cbn [append] in IH. rewrite IH. apply orb_true_r.
Qed.

(** A text with "_v" that is followed by another "_v" splits into three
    pieces or more. *)
Lemma split_two_separators (s rest : string) :
  contains "_v" s = true ->
  (3 <= length (split "_v" (s ++ "_v" ++ rest)))%nat.
Proof.
  intros H. destruct (first_underscore_v s H) as (a & b & -> & Ha).
  replace ((a ++ "_v" ++ b) ++ "_v" ++ rest)%string
    with (a ++ "_v" ++ (b ++ "_v" ++ rest))%string
    by (now rewrite append_assoc).
  unfold split.
  rewrite split_go_no_start by now apply no_start_underscore_v.
  rewrite (split_go_sep "_" "v"). cbn [append].
  destruct (split_go_present "_v" "" (b ++ "_v" ++ rest)) as (x & y & l & E);
    [discriminate | apply contains_underscore_v_app |].
  cbn [append] in E. rewrite E. cbn [length]. lia.
Qed.

(** A descriptor or an extension that contains "_v" gives a file name that
    [__init__] refuses. *)
Theorem init_rejects_separator
        (w : W) (dir0 d0 : string) (v0 : Z) (e0 : string) (sf : SceneFile) :
  isModified host w = false ->
  Path.name (sceneName host w) = basename sf ->
  contains "_v" (descriptor sf) = true \/ contains "_v" (ext sf) = true ->
  fst (init host dir0 d0 v0 e0 w) = inl NamingConventionError.
Proof.
  intros Hmod Hname Hor.
  apply (init_naming_error_length W host w dir0 d0 v0 e0 Hmod).
  rewrite Hname. unfold basename.
  destruct (contains "_v" (descriptor sf)) eqn:Hd.
  - pose proof (split_two_separators (descriptor sf)
                  (format_03d (version sf) ++ "." ++ ext sf) Hd).
    lia.
  - destruct Hor as [Hor|He]; [discriminate Hor|].
    unfold split.
    rewrite split_go_no_start by now apply no_start_underscore_v.
    rewrite (split_go_sep "_" "v"). cbn [append].
    destruct (split_go_present "_v" ""
                (format_03d (version sf) ++ String "." (ext sf)))
      as (x & y & l & E); [discriminate | |].
    + rewrite contains_no_start
        by (apply no_start_first_char, format_03d_avoids; reflexivity).
      cbn [contains prefix].
      destruct (ascii_dec "_" "."); [discriminate | exact He].
    + rewrite E. cbn [length]. lia.
Qed.

End InitMore.

(** ** Paths built by [path] *)

Module PathFacts.

Import PyStr PyStrFacts.

Lemma prefix_sep_absent (b : string) :
  contains "/" b = false -> prefix "/" b = false.
Proof.
  destruct b as [|c b]; [reflexivity|].
  cbn [contains]. intros H. now apply orb_false_iff in H as [H _].
Qed.

Lemma last_cons_split_go (x cur s : string) :
  last (x :: split_go "/" 0 cur s) "" = last (split_go "/" 0 cur s) "".
Proof.
  destruct (split_go_cons "/" 0 cur s) as (y & l & E). now rewrite E.
Qed.

(** After the last "/" comes the name. *)
Lemma last_split_sep (x b cur : string) :
  contains "/" b = false ->
  last (split_go "/" 0 cur (x ++ "/" ++ b)) "" = b.
Proof.
  intros Hb. revert cur; induction x as [|c x IH]; intros cur.
  - change ("" ++ "/" ++ b)%string with ("/" ++ b)%string.
    rewrite (split_go_sep "/" ""). cbn [append].
    rewrite split_go_absent by exact Hb. reflexivity.
  - cbn [append split_go].
    destruct (prefix "/" (String c (x ++ String "/" b))).
    + cbn [String.length Nat.sub]. rewrite last_cons_split_go. apply IH.
    + apply IH.
Qed.

Lemma ends_with_sep_inv (a : string) :
  Path.ends_with_sep a = true -> exists a', a = (a' ++ "/")%string.
Proof.
  induction a as [|c a IH]; [discriminate|].
  destruct a as [|c2 a].
  - unfold Path.ends_with_sep. cbn. intros H.
    apply Ascii.eqb_eq in H. subst. now exists "".
  - intros H. destruct IH as [a' E]; [exact H|].
    exists (String c a'). cbn [append]. now rewrite <- E.
Qed.

(** The name of [a / b] is [b] when [b] has no "/". *)
Lemma name_join (a b : string) :
  contains "/" b = false -> Path.name (Path.join a b) = b.
Proof.
  intros Hb. unfold Path.join, Path.name, split.
  rewrite (prefix_sep_absent b Hb).
  destruct (String.eqb_spec a "") as [->|Ha].
  - cbn [orb append]. now rewrite split_go_absent.
  - cbn [orb]. destruct (Path.ends_with_sep a) eqn:He.
    + destruct (ends_with_sep_inv a He) as [a' ->].
      rewrite append_assoc. now apply last_split_sep.
    + now apply last_split_sep.
Qed.

Lemma head_absent (b : string) : contains "/" b = false -> Path.head b = "".
Proof.
  destruct b as [|c b]; [reflexivity|].
  intros H. cbn [Path.head]. unfold Path.has_sep. now rewrite H.
Qed.

Lemma contains_sep_app (x b : string) : contains "/" (x ++ "/" ++ b) = true.
Proof.
  induction x as [|c x IH].
  - cbn [append contains].
    change (String "/" b) with ("/" ++ b)%string.
    now rewrite prefix_refl_app.
  - cbn [append contains]. cbn [append] in IH. rewrite IH. apply orb_true_r.
Qed.

Lemma head_app (x b : string) :
  contains "/" b = false -> Path.head (x ++ "/" ++ b) = (x ++ "/")%string.
Proof.
  intros Hb. induction x as [|c x IH].
  - cbn [append Path.head]. unfold Path.has_sep.
    pose proof (contains_sep_app "" b) as H. cbn [append] in H. rewrite H.
    now rewrite head_absent.
  - cbn [append Path.head]. unfold Path.has_sep.
    pose proof (contains_sep_app (String c x) b) as H.
    cbn [append] in H. rewrite H. cbn [append] in IH. now rewrite IH.
Qed.

Lemma rstrip_sep_app (x : string) :
  Path.rstrip_sep (x ++ "/") = Path.rstrip_sep x.
Proof.
  induction x as [|c x IH]; [reflexivity|].
  cbn [append Path.rstrip_sep]. now rewrite IH.
Qed.

Lemma rstrip_sep_id (a : string) :
  Path.ends_with_sep a = false -> Path.rstrip_sep a = a.
Proof.
  induction a as [|c a IH]; [reflexivity|].
  destruct a as [|c2 a].
  - unfold Path.ends_with_sep. cbn. intros H. now rewrite H.
  - intros H. cbn [Path.rstrip_sep] in *. rewrite IH by exact H.
    cbn [String.eqb]. rewrite andb_false_r. reflexivity.
Qed.

Lemma all_sep_ends (a : string) :
  a <> "" -> Path.all_sep a = true -> Path.ends_with_sep a = true.
Proof.
  induction a as [|c a IH]; [congruence|]. intros _.
  cbn [Path.all_sep]. intros H. apply andb_true_iff in H as [Hc Ha].
  destruct a as [|c2 a].
  - unfold Path.ends_with_sep. cbn. exact Hc.
  - apply IH; [discriminate | exact Ha].
Qed.

Lemma all_sep_app (x : string) :
  Path.all_sep (x ++ "/") = Path.all_sep x.
Proof.
  induction x as [|c x IH]; [reflexivity|].
  cbn [append Path.all_sep]. now rewrite IH.
Qed.

(** The parent of [a / b] is [a] when [a] does not end in "/" and [b] has
    no "/". *)
Lemma parent_join (a b : string) :
  Path.ends_with_sep a = false -> contains "/" b = false ->
  Path.parent (Path.join a b) = a.
Proof.
  intros Ha Hb. unfold Path.join, Path.parent.
  rewrite (prefix_sep_absent b Hb), Ha.
  destruct (String.eqb_spec a "") as [->|Hne]; cbn [orb].
  - cbn [append]. now rewrite head_absent.
  - rewrite head_app by exact Hb. rewrite all_sep_app.
    destruct (Path.all_sep a) eqn:Hall.
    + rewrite all_sep_ends in Ha by assumption. discriminate.
    + rewrite rstrip_sep_app. now apply rstrip_sep_id.
Qed.

End PathFacts.

Section Reopen.

Variable W : Type.
Variable host : SceneHost W.

Import PyStr PyStrFacts PathFacts.

(** Constructing from the scene that was saved at [path()] gives the object
    back: directory, descriptor, version and extension. *)
Theorem init_after_path (w : W) (dir0 d0 : string) (v0 : Z) (e0 : string)
        (sf : SceneFile) :
  isModified host w = false ->
  sceneName host w = path sf ->
  Path.ends_with_sep (dir sf) = false ->
  contains "/" (basename sf) = false ->
  contains "_v" (descriptor sf) = false ->
  contains "." (ext sf) = false ->
  contains "_v" (ext sf) = false ->
  init host dir0 d0 v0 e0 w = (inr sf, w).
Proof.
  intros Hmod Hscene Hdir Hslash Hd Hdot He.
  rewrite (init_basename_any W host w dir0 d0 v0 e0 sf Hmod);
    try assumption.
  - rewrite Hscene. unfold path. rewrite parent_join by assumption.
    now destruct sf.
  - rewrite Hscene. unfold path. now apply name_join.
Qed.

End Reopen.

(** ** More on saving and on the version scan *)

Section MethodMore.

Variable W : Type.
Variable host : SceneHost W.

Import PyStr PyStrFacts.

Lemma new_calls_logged (m : Mem W) (w : W) (cs : list call) :
  new_calls m (logged w cs m) = cs.
Proof.
  unfold new_calls, logged. cbn [calls].
  now rewrite skipn_app, skipn_all, Nat.sub_diag.
Qed.

(** [save] asks the host to save [path()] once or twice, creates
    directories at most once in between, and leaves the object alone. *)
Theorem save_calls_bounded (m : Mem W) :
  self (snd (save host m)) = self m /\
  (new_calls m (snd (save host m)) = [CallSaveAs (path (self m))] \/
   new_calls m (snd (save host m)) =
     [CallSaveAs (path (self m)); CallMakedirs (dir (self m))] \/
   new_calls m (snd (save host m)) =
     [CallSaveAs (path (self m)); CallMakedirs (dir (self m));
      CallSaveAs (path (self m))]).
Proof.
  split; [apply save_self|].
  destruct (saveAs host (path (self m)) (world m)) as [[e|] w1] eqn:H.
  - rewrite (save_first_failure W host m e w1 H).
    destruct (is_RuntimeError e).
    + destruct (makedirs_p host (dir (self m)) w1) as [[e2|] w2];
        cbn [snd]; rewrite new_calls_logged; auto.
    + cbn [snd]. rewrite new_calls_logged. auto.
  - rewrite (save_first_success W host m w1 H). cbn [snd].
    rewrite new_calls_logged. auto.
Qed.

Lemma save_value (m : Mem W) (r : option string) (m' : Mem W) :
  save host m = (inr r, m') -> r = None.
Proof.
  unfold save, bind, ret.
  destruct (try_except_RuntimeError _ _ m) as [[e|u] m1]; congruence.
Qed.

Lemma filter_none {A} (f : A -> bool) (l : list A) :
  (forall x, In x l -> f x = false) -> filter f l = [].
Proof.
  induction l as [|x l IH]; intros H; [reflexivity|].
  cbn [filter]. rewrite (H x (or_introl eq_refl)).
  apply IH. intros y Hy. apply H. now right.
Qed.

(** When the listing holds no scene of the object's descriptor (an empty
    or missing directory included), [increment_and_save] is [save] after
    the listing: the version stays. *)
Theorem increment_and_save_no_siblings (m : Mem W) :
  (forall scene, In scene (scenes_of host m) ->
                 same_descriptor (descriptor (self m)) scene = false) ->
  increment_and_save host m = save host (listed m) /\
  self (snd (increment_and_save host m)) = self m.
Proof.
  intros H.
  assert (E : increment_and_save host m = save host (listed m)).
  { rewrite increment_and_save_eq.
    rewrite (scan_filter W (descriptor (self m))) by reflexivity.
    rewrite filter_none by exact H. cbn [scan ret].
    destruct (save host (listed m)) as [[e|r] m2] eqn:Es; [reflexivity|].
    now rewrite (save_value _ _ _ Es). }
  split; [exact E|]. rewrite E. now rewrite save_self.
Qed.

Lemma scene_version_eq (scene : string) (L : Z) (m : Mem W) :
  same_descriptor (descriptor (self m)) scene = true ->
  scan_scene scene L m =
  match scene_version scene with
  | Some v =>
      (inr (if v >? version (self m) then v else L),
       if v =? version (self m) then with_version (L + 1) m else m)
  | None =>
      (match nth_error (split "_v" scene) 1 with
       | None => inl IndexError
       | Some _ => inl ValueError
       end, m)
  end.
Proof.
  intros Hd. rewrite scan_scene_eq, Hd. unfold scene_version.
  destruct (nth_error (split "_v" scene) 1) as [nv1|]; [|reflexivity].
  now destruct (PyStr.int (hd "" (split "." nv1))).
Qed.

Lemma scan_scene_other (scene : string) (L : Z) (m : Mem W) :
  same_descriptor (descriptor (self m)) scene = false ->
  scan_scene scene L m = (inr L, m).
Proof. intros Hd. now rewrite scan_scene_eq, Hd. Qed.

(** The scan leaves the object as it is when no sibling carries the
    object's version. *)
Lemma scan_no_equal (scenes : list string) (L : Z) (m : Mem W) :
  (forall scene, In scene scenes ->
     same_descriptor (descriptor (self m)) scene = true ->
     scene_version scene <> Some (version (self m))) ->
  self (snd (scan scenes L m)) = self m.
Proof.
  revert L; induction scenes as [|scene rest IH]; intros L H; [reflexivity|].
  rewrite scan_cons.
  assert (Hrest : forall scene, In scene rest ->
     same_descriptor (descriptor (self m)) scene = true ->
     scene_version scene <> Some (version (self m)))
    by (intros s Hs; apply H; now right).
  destruct (same_descriptor (descriptor (self m)) scene) eqn:Hd.
  - rewrite scene_version_eq by exact Hd.
    specialize (H scene (or_introl eq_refl) Hd).
    destruct (scene_version scene) as [v|].
    + destruct (Z.eqb_spec v (version (self m))) as [->|Hne];
        [congruence | now apply IH].
    + now destruct (nth_error (split "_v" scene) 1).
  - rewrite scan_scene_other by exact Hd. now apply IH.
Qed.

(** Without a sibling that carries the object's own version, the version
    is not changed, whatever larger versions the directory holds.  The
    siblings of the object's descriptor have ASCII names. *)
Theorem increment_and_save_no_equal_version (m : Mem W) :
  (forall scene, In scene (scenes_of host m) ->
     same_descriptor (descriptor (self m)) scene = true ->
     ascii_text scene = true) ->
  (forall scene, In scene (scenes_of host m) ->
     same_descriptor (descriptor (self m)) scene = true ->
     scene_version scene <> Some (version (self m))) ->
  self (snd (increment_and_save host m)) = self m.
Proof.
  intros _ H. rewrite increment_and_save_self.
  now rewrite scan_no_equal.
Qed.

(** The invariant behind the upper bound. *)
Lemma scan_upper_bound (B : Z) (d : string) (scenes : list string)
      (L : Z) (m : Mem W) :
  descriptor (self m) = d ->
  (forall scene v, In scene scenes -> same_descriptor d scene = true ->
                   scene_version scene = Some v -> v <= B) ->
  L <= B -> version (self m) <= B + 1 ->
  version (self (snd (scan scenes L m))) <= B + 1.
Proof.
  intros Hd. revert L m Hd; induction scenes as [|scene rest IH];
    intros L m Hd H HL Hv; [exact Hv|].
  rewrite scan_cons.
  assert (Hrest : forall scene v, In scene rest ->
     same_descriptor d scene = true -> scene_version scene = Some v -> v <= B)
    by (intros s v Hs; apply H; now right).
  destruct (same_descriptor d scene) eqn:Hs.
  - rewrite scene_version_eq by now rewrite Hd.
    pose proof (H scene) as Hb. specialize (fun v => Hb v (or_introl eq_refl) Hs).
    destruct (scene_version scene) as [v|].
    + specialize (Hb v eq_refl).
      destruct (Z.eqb_spec v (version (self m)));
        destruct (Z.gtb_spec v (version (self m)));
        apply IH; cbn; try assumption; lia.
    + now destruct (nth_error (split "_v" scene) 1).
  - rewrite scan_scene_other by now rewrite Hd. now apply IH.
Qed.

(** The version after the call is at most one above the largest version
    around: the object's own or a sibling's.  The siblings of the object's
    descriptor have ASCII names. *)
Theorem increment_and_save_upper_bound (m : Mem W) (B : Z) :
  version (self m) <= B ->
  (forall scene, In scene (scenes_of host m) ->
     same_descriptor (descriptor (self m)) scene = true ->
     ascii_text scene = true) ->
  (forall scene v, In scene (scenes_of host m) ->
     same_descriptor (descriptor (self m)) scene = true ->
     scene_version scene = Some v -> v <= B) ->
  version (self (snd (increment_and_save host m))) <= B + 1.
Proof.
  intros Hv _ H. rewrite increment_and_save_self.
  apply (scan_upper_bound B (descriptor (self m))); try assumption;
    cbn [listed logged self]; (reflexivity || lia).
Qed.

(** Siblings at or below [v0] leave an object at [v0 + 1] alone. *)
Lemma scan_above_all (d : string) (v0 : Z) (scenes : list string) (m : Mem W) :
  descriptor (self m) = d ->
  version (self m) = v0 + 1 ->
  (forall scene, In scene scenes -> same_descriptor d scene = true ->
     exists v, scene_version scene = Some v /\ v <= v0) ->
  fst (scan scenes v0 m) = inr v0 /\
  version (self (snd (scan scenes v0 m))) = v0 + 1.
Proof.
  intros Hd Hv. induction scenes as [|scene rest IH]; intros H;
    [now cbn|].
  rewrite scan_cons.
  assert (Hrest : forall scene, In scene rest -> same_descriptor d scene = true ->
     exists v, scene_version scene = Some v /\ v <= v0)
    by (intros s Hs; apply H; now right).
  destruct (same_descriptor d scene) eqn:Hs.
  - rewrite scene_version_eq by now rewrite Hd.
    destruct (H scene (or_introl eq_refl) Hs) as (v & -> & Hle).
    destruct (Z.eqb_spec v (version (self m))); [lia|].
    destruct (Z.gtb_spec v (version (self m))); [lia|].
    now apply IH.
  - rewrite scan_scene_other by now rewrite Hd. now apply IH.
Qed.

(** An object at [v0], no sibling above it, one sibling at [v0]. *)
Lemma scan_latest (d : string) (v0 : Z) (scenes : list string) (m : Mem W) :
  descriptor (self m) = d ->
  version (self m) = v0 ->
  (forall scene, In scene scenes -> same_descriptor d scene = true ->
     exists v, scene_version scene = Some v /\ v <= v0) ->
  (exists scene, In scene scenes /\ same_descriptor d scene = true /\
                 scene_version scene = Some v0) ->
  fst (scan scenes v0 m) = inr v0 /\
  version (self (snd (scan scenes v0 m))) = v0 + 1.
Proof.
  intros Hd Hv. induction scenes as [|scene rest IH]; intros H Hex.
  - destruct Hex as (s & [] & _).
  - rewrite scan_cons.
    assert (Hrest : forall scene, In scene rest ->
       same_descriptor d scene = true ->
       exists v, scene_version scene = Some v /\ v <= v0)
      by (intros s Hs; apply H; now right).
    destruct (same_descriptor d scene) eqn:Hs.
    + rewrite scene_version_eq by now rewrite Hd.
      destruct (H scene (or_introl eq_refl) Hs) as (v & Ev & Hle).
      rewrite Ev.
      destruct (Z.gtb_spec v (version (self m))); [lia|].
      destruct (Z.eqb_spec v (version (self m))) as [E|Hne].
      * apply (scan_above_all d); [exact Hd | cbn; lia | exact Hrest].
      * apply IH; [exact Hrest|].
        destruct Hex as (s & [<-|Hin] & Hsd & Hsv);
          [congruence | now exists s].
    + rewrite scan_scene_other by now rewrite Hd.
      apply IH; [exact Hrest|].
      destruct Hex as (s & [<-|Hin] & Hsd & Hsv);
        [congruence | now exists s].
Qed.

(** Incrementing the latest version: when every sibling of the object's
    descriptor has a readable version, none above the object's, and one
    equal to it, the object ends one version higher, whatever the order of
    the listing. *)
Theorem increment_and_save_latest_version (m : Mem W) :
  (forall scene, In scene (scenes_of host m) ->
     same_descriptor (descriptor (self m)) scene = true ->
     exists v, scene_version scene = Some v /\ v <= version (self m)) ->
  (exists scene, In scene (scenes_of host m) /\
     same_descriptor (descriptor (self m)) scene = true /\
     scene_version scene = Some (version (self m))) ->
  version (self (snd (increment_and_save host m))) = version (self m) + 1.
Proof.
  intros H Hex. rewrite increment_and_save_self.
  now apply (scan_latest (descriptor (self m)) (version (self m))).
Qed.

Lemma scan_descriptor (scene : string) (L : Z) (m : Mem W) :
  descriptor (self (snd (scan_scene scene L m))) = descriptor (self m).
Proof.
  rewrite scan_scene_eq.
  destruct (same_descriptor _ scene); [|reflexivity].
  destruct (nth_error _ 1) as [nv1|]; [|reflexivity].
  destruct (PyStr.int _) as [v|]; [|reflexivity].
  now destruct (v =? version (self m)).
Qed.

(** A sibling of the object's descriptor without a readable version stops
    the scan. *)
Lemma scan_malformed (d : string) (scenes : list string) (L : Z) (m : Mem W) :
  descriptor (self m) = d ->
  (exists scene, In scene scenes /\ same_descriptor d scene = true /\
                 scene_version scene = None) ->
  exists e, fst (scan scenes L m) = inl e /\
            (e = ValueError \/ e = IndexError).
Proof.
  revert L m; induction scenes as [|scene rest IH]; intros L m Hd Hex.
  - destruct Hex as (s & [] & _).
  - rewrite scan_cons.
    pose proof (scan_descriptor scene L m) as Hdesc.
    destruct (scan_scene scene L m) as [[e|L'] m'] eqn:Es.
    + exists e. split; [reflexivity|].
      rewrite scan_scene_eq in Es.
      destruct (same_descriptor _ scene); [|discriminate].
      destruct (nth_error _ 1) as [nv1|]; [|injection Es as <- _; auto].
      destruct (PyStr.int _) as [v|]; [discriminate|].
      injection Es as <- _; auto.
    + apply IH; [cbn [snd] in Hdesc; congruence|].
      destruct Hex as (s & [<-|Hin] & Hsd & Hsv); [|now exists s].
      rewrite scene_version_eq, Hsv in Es by now rewrite Hd.
      now destruct (nth_error (split "_v" scene) 1).
Qed.

(** A sibling of the object's descriptor with an ASCII name whose version
    cannot be read aborts [increment_and_save] with [ValueError] or
    [IndexError]; the host is asked for the listing and for nothing else. *)
Theorem increment_and_save_malformed_sibling (m : Mem W) :
  (exists scene, In scene (scenes_of host m) /\
     same_descriptor (descriptor (self m)) scene = true /\
     ascii_text scene = true /\
     scene_version scene = None) ->
  (fst (increment_and_save host m) = inl ValueError \/
   fst (increment_and_save host m) = inl IndexError) /\
  new_calls m (snd (increment_and_save host m)) =
    [CallGetFileList (dir (self m))].
Proof.
  intros (scene & Hin & Hsd & _ & Hsv).
  assert (Hex : exists scene, In scene (scenes_of host m) /\
            same_descriptor (descriptor (self m)) scene = true /\
            scene_version scene = None) by now exists scene.
  destruct (scan_malformed (descriptor (self m)) (scenes_of host m)
              (version (self m)) (listed m) eq_refl Hex) as (e & He & Hk).
  pose proof (increment_and_save_calls W host m) as Hc.
  rewrite He in Hc. split; [|exact Hc].
  rewrite increment_and_save_eq.
  destruct (scan _ _ (listed m)) as [[e'|L] m1]; cbn [fst] in *;
    [|discriminate].
  injection He as ->. destruct Hk as [->| ->]; auto.
Qed.

(** Readable siblings let the scan run to its end. *)
Lemma scan_readable (d : string) (scenes : list string) (L : Z) (m : Mem W) :
  descriptor (self m) = d ->
  (forall scene, In scene scenes -> same_descriptor d scene = true ->
                 scene_version scene <> None) ->
  exists L', fst (scan scenes L m) = inr L'.
Proof.
  revert L m; induction scenes as [|scene rest IH]; intros L m Hd H;
    [now exists L|].
  rewrite scan_cons.
  assert (Hrest : forall scene, In scene rest ->
     same_descriptor d scene = true -> scene_version scene <> None)
    by (intros s Hs; apply H; now right).
  destruct (same_descriptor d scene) eqn:Hs.
  - rewrite scene_version_eq by now rewrite Hd.
    specialize (H scene (or_introl eq_refl) Hs).
    destruct (scene_version scene) as [v|]; [|congruence].
    destruct (v =? version (self m)); now apply IH.
  - rewrite scan_scene_other by now rewrite Hd. now apply IH.
Qed.

(** When every sibling of the object's descriptor has a readable version,
    the scan completes and the first thing asked of the host after the
    listing is to save [path()] of the object as the call leaves it. *)
Theorem increment_and_save_readable_siblings (m : Mem W) :
  (forall scene, In scene (scenes_of host m) ->
     same_descriptor (descriptor (self m)) scene = true ->
     scene_version scene <> None) ->
  exists cs,
    new_calls m (snd (increment_and_save host m)) =
    CallGetFileList (dir (self m))
    :: CallSaveAs (path (self (snd (increment_and_save host m)))) :: cs.
Proof.
  intros H.
  destruct (scan_readable (descriptor (self m)) (scenes_of host m)
              (version (self m)) (listed m) eq_refl H) as (L & HL).
  pose proof (increment_and_save_calls W host m) as Hc.
  rewrite HL in Hc. destruct Hc as (cs & Hcs & _). now exists cs.
Qed.

End MethodMore.

(** ** More runs on the in-memory host *)

Section MoreRuns.

Import FakeHost Scenario.

Ltac each_scene H :=
  vm_compute in H;
  repeat (destruct H as [H|H]; [subst|]); try contradiction.

Lemma format_03d_width_witness :
  String.length (PyStr.format_03d 7) = 3%nat /\
  PyStr.forall_chars PyStr.is_digit (PyStr.format_03d 7) = true.
Proof. apply (format_03d_width 7). lia. Defined.

Lemma basename_injective_witness :
  descriptor (ship 1) = "ship" /\ version (ship 1) = 1 /\ ext (ship 1) = "ma".
Proof.
  apply (basename_injective (ship 1)
           {| _dir := "/elsewhere"; descriptor := "ship"; version := 1;
              ext := "ma" |}); reflexivity.
Defined.

Lemma init_basename_roundtrip_any_version_witness :
  init host "" "main" 1 "ma" (proj "/proj/ship_v-12.ma" [] false) =
  (inr (ship (-12)), proj "/proj/ship_v-12.ma" [] false) /\
  init host "" "main" 1 "ma" (proj "/proj/ship_v1000.ma" [] false) =
  (inr (ship 1000), proj "/proj/ship_v1000.ma" [] false).
Proof.
  split.
  - apply (init_basename_roundtrip_any_version _ host
             (proj "/proj/ship_v-12.ma" [] false) "" "main" 1 "ma" (ship (-12)));
      reflexivity.
  - apply (init_basename_roundtrip_any_version _ host
             (proj "/proj/ship_v1000.ma" [] false) "" "main" 1 "ma" (ship 1000));
      reflexivity.
Defined.

Lemma init_failures_witness :
  isModified host (proj "/proj/ship_vabc.ma" [] false) = false /\
  (ValueError = NamingConventionError \/ ValueError = ValueError \/
   ValueError = IndexError).
Proof.
  apply (init_failures _ host (proj "/proj/ship_vabc.ma" [] false)
           "" "main" 1 "ma" ValueError).
  reflexivity.
Defined.

Lemma init_missing_dot_witness :
  init host "" "main" 1 "ma" (proj "/proj/ship_v001" [] false) =
    (inl IndexError, proj "/proj/ship_v001" [] false) /\
  init host "" "main" 1 "ma" (proj "/proj/ship_vfinal" [] false) =
    (inl ValueError, proj "/proj/ship_vfinal" [] false).
Proof.
  split.
  - apply (init_missing_dot _ host (proj "/proj/ship_v001" [] false)
             "" "main" 1 "ma" "ship" "001"); reflexivity.
  - apply (init_missing_dot _ host (proj "/proj/ship_vfinal" [] false)
             "" "main" 1 "ma" "ship" "final"); reflexivity.
Defined.

Lemma init_rejects_separator_witness :
  fst (init host "" "main" 1 "ma" (proj "/proj/ship_view_v001.ma" [] false)) =
  inl NamingConventionError.
Proof.
  apply (init_rejects_separator _ host
           (proj "/proj/ship_view_v001.ma" [] false) "" "main" 1 "ma"
           {| _dir := "/proj"; descriptor := "ship_view"; version := 1;
              ext := "ma" |});
    [reflexivity | reflexivity | left; reflexivity].
Defined.

Lemma init_after_path_witness :
  init host "" "main" 1 "ma" (proj (path (ship 41)) [] false) =
  (inr (ship 41), proj (path (ship 41)) [] false).
Proof.
  apply (init_after_path _ host (proj (path (ship 41)) [] false)
           "" "main" 1 "ma" (ship 41)); reflexivity.
Defined.

Lemma increment_and_save_no_siblings_witness :
  let m := start (proj "" ["/proj/car_v007.ma"; "/proj/notes.txt"] false)
                 (ship 1) in
  increment_and_save host m = save host (listed m) /\
  self (snd (increment_and_save host m)) = self m.
Proof.
  apply (increment_and_save_no_siblings _ host).
  intros scene Hin. each_scene Hin; reflexivity.
Defined.

Lemma increment_and_save_no_equal_version_witness :
  let m := start (proj "" ["/proj/ship_v002.ma"; "/proj/ship_v003.ma"] false)
                 (ship 1) in
  self (snd (increment_and_save host m)) = self m.
Proof.
  apply (increment_and_save_no_equal_version _ host).
  - intros scene Hin _. each_scene Hin; reflexivity.
  - intros scene Hin _. each_scene Hin; discriminate.
Defined.

Lemma increment_and_save_upper_bound_witness :
  version (self (snd (increment_and_save host (start unordered (ship 1)))))
  <= 5 + 1.
Proof.
  apply (increment_and_save_upper_bound _ host (start unordered (ship 1)) 5).
  - cbn. lia.
  - intros scene Hin _. each_scene Hin; reflexivity.
  - intros scene v Hin _ Hv. each_scene Hin; vm_compute in Hv;
      injection Hv as <-; lia.
Defined.

Lemma increment_and_save_latest_version_witness :
  version (self (snd (increment_and_save host (start ascending (ship 2))))) =
  2 + 1 /\
  version (self (snd (increment_and_save host (start descending (ship 2))))) =
  2 + 1.
Proof.
  split.
  - apply (increment_and_save_latest_version _ host (start ascending (ship 2))).
    + intros scene Hin _. each_scene Hin;
        [exists 1 | exists 2]; (split; [reflexivity | cbn; lia]).
    + exists "ship_v002.ma". split; [vm_compute; auto | split; reflexivity].
  - apply (increment_and_save_latest_version _ host (start descending (ship 2))).
    + intros scene Hin _. each_scene Hin;
        [exists 2 | exists 1]; (split; [reflexivity | cbn; lia]).
    + exists "ship_v002.ma". split; [vm_compute; auto | split; reflexivity].
Defined.

Lemma increment_and_save_malformed_sibling_witness :
  let m := start (proj "" ["/proj/ship_v001.ma"; "/proj/ship_vfinal.ma"] false)
                 (ship 1) in
  (fst (increment_and_save host m) = inl ValueError \/
   fst (increment_and_save host m) = inl IndexError) /\
  new_calls m (snd (increment_and_save host m)) = [CallGetFileList "/proj"].
Proof.
  apply (increment_and_save_malformed_sibling _ host).
  exists "ship_vfinal.ma".
  split; [vm_compute; auto | repeat split; reflexivity].
Defined.

Lemma increment_and_save_readable_siblings_witness :
  exists cs,
    new_calls (start descending (ship 1))
              (snd (increment_and_save host (start descending (ship 1)))) =
    CallGetFileList "/proj"
    :: CallSaveAs (path (self (snd (increment_and_save host
                                      (start descending (ship 1)))))) :: cs.
Proof.
  apply (increment_and_save_readable_siblings _ host
           (start descending (ship 1))).
  intros scene Hin _. each_scene Hin; discriminate.
Defined.

End MoreRuns.

(** ** The reader of integers and ASCII *)

Module AsciiFacts.

Import PyStr PyStrFacts.

Lemma is_space_ascii (c : ascii) : is_space c = true -> is_ascii c = true.
Proof.
  destruct c as [[] [] [] [] [] [] [] []]; intros H;
    solve [reflexivity | discriminate H].
Qed.

Lemma digit_ascii (c : ascii) (d : Z) : digit_of c = Some d -> is_ascii c = true.
Proof.
  destruct c as [[] [] [] [] [] [] [] []]; intros H;
    solve [reflexivity | discriminate H].
Qed.

Lemma int_digits_ascii (s : string) (acc : Z) (p : bool) (v : Z) :
  int_digits acc p s = Some v -> ascii_text s = true.
Proof.
  revert acc p; induction s as [|c s IH]; intros acc p H; [reflexivity|].
  cbn [int_digits] in H. unfold ascii_text. cbn [forall_chars].
  destruct (digit_of c) as [d|] eqn:Hd.
  - rewrite (digit_ascii c d Hd). exact (IH _ _ H).
  - destruct (Ascii.eqb_spec c "_") as [->|]; [|discriminate H].
    destruct p; [|discriminate H]. exact (IH _ _ H).
Qed.

Lemma lstrip_ascii (s : string) :
  ascii_text (lstrip s) = true -> ascii_text s = true.
Proof.
  induction s as [|c s IH]; [reflexivity|].
  cbn [lstrip]. destruct (is_space c) eqn:Hc; [|exact (fun H => H)].
  intros H. unfold ascii_text. cbn [forall_chars].
  rewrite (is_space_ascii c Hc). exact (IH H).
Qed.

Lemma rstrip_ascii (s : string) :
  ascii_text (rstrip s) = true -> ascii_text s = true.
Proof.
  induction s as [|c s IH]; [reflexivity|].
  cbn [rstrip]. unfold ascii_text in *. cbn [forall_chars].
  destruct (is_space c) eqn:Hc; cbn [andb].
  - destruct (String.eqb_spec (rstrip s) "") as [E|E].
    + intros _. rewrite (is_space_ascii c Hc). apply IH. now rewrite E.
    + cbn [forall_chars]. intros H. apply andb_true_iff in H as [H1 H2].
      rewrite H1. now apply IH.
  - cbn [forall_chars]. intros H. apply andb_true_iff in H as [H1 H2].
    rewrite H1. now apply IH.
Qed.

(** Text in which [int] reads a number is ASCII. *)
Lemma int_readable_ascii (s : string) (v : Z) :
  int s = Some v -> ascii_text s = true.
Proof.
  unfold int. intros H. apply rstrip_ascii, lstrip_ascii.
  destruct (lstrip (rstrip s)) as [|c t]; [reflexivity|].
  assert (Hc : (is_ascii c = true /\
                exists acc p u, int_digits acc p t = Some u) \/
               exists u, int_digits 0 false (String c t) = Some u).
  { destruct c as [[] [] [] [] [] [] [] []];
      try (right; now exists v);
      left; (split; [reflexivity|]).
    - now exists 0, false, v.
    - destruct (int_digits 0 false t) as [u|] eqn:E; [|discriminate H].
      now exists 0, false, u. }
  destruct Hc as [[Hc (acc & p & u & Hu)]|[u Hu]].
  - unfold ascii_text. cbn [forall_chars]. rewrite Hc.
    exact (int_digits_ascii t acc p u Hu).
  - exact (int_digits_ascii _ _ _ _ Hu).
Qed.

End AsciiFacts.

(** With [self.version = 1] and siblings 5, 3, 1, 4 in listing order,
    [largest_number] ends at 3, below the largest sibling, and the object
    ends at version 4. *)
Example scan_largest_below_maximum :
  let m := FakeHost.start
             (Scenario.proj "/proj/ship_v001.ma"
                ["/proj/ship_v005.ma"; "/proj/ship_v003.ma";
                 "/proj/ship_v001.ma"; "/proj/ship_v004.ma"] false)
             (Scenario.ship 1) in
  fst (scan (scenes_of FakeHost.host m) (version (self m)) (listed m)) = inr 3 /\
  version (self (snd (increment_and_save FakeHost.host m))) = 4.
Proof. now vm_compute. Qed.
